(** * create-tag.py: the tagging-plan builder, embedded and verified

    The script reads tagging rules from a CSV file, lists the resources of an
    AWS Resource Explorer view and writes one plan row (ARN, tag key, tag
    value) for every tag a rule assigns to a resource.

    Modelling conventions.
    - A Python [str] is a [string]; a character is a code point below 256, so
      [lower] and [strip] follow [str.lower] and [str.strip] on Latin-1 text.
    - A [dict] read with [.get] has optional fields; the rule table is an
      insertion-ordered association list, as [dict.items()] iterates it.
    - A field of the rule file is an optional string: the dict reader gives
      [None] for a column a record is too short to reach, and the loader
      stores it as it is.
    - A Python [set] of strings is the list of its distinct elements; the
      order in which a [for] loop visits it is not fixed by the language (it
      follows the string hashes, which change from one interpreter run to the
      next), so the loop takes that order as the parameter [set_iter].
    - Exceptions are an error result; the log is a list of entries. *)

From Stdlib Require Import String Ascii List Bool Arith Lia Permutation.
Import ListNotations.
Open Scope string_scope.
Open Scope list_scope.

(** ** Python string operations *)

Module PyStr.

(** [str.lower] on one code point below 256. *)
Definition lower_char (c : ascii) : ascii :=
  let n := nat_of_ascii c in
  if (((65 <=? n) && (n <=? 90)) || ((192 <=? n) && (n <=? 214))
      || ((216 <=? n) && (n <=? 222)))%nat
  then ascii_of_nat (n + 32) else c.

Fixpoint lower (s : string) : string :=
  match s with
  | EmptyString => EmptyString
  | String c r => String (lower_char c) (lower r)
  end.

(** [s.startswith(p)]. *)
Fixpoint startswith (p s : string) : bool :=
  match p with
  | EmptyString => true
  | String a p' =>
      match s with
      | EmptyString => false
      | String b s' => Ascii.eqb a b && startswith p' s'
      end
  end.

(** [s.endswith(suf)]: [suf] is one of the tails of [s]. *)
Fixpoint endswith (suf s : string) : bool :=
  String.eqb s suf ||
  match s with
  | EmptyString => false
  | String _ r => endswith suf r
  end.

(** [sub in s]. *)
Fixpoint contains (sub s : string) : bool :=
  startswith sub s ||
  match s with
  | EmptyString => false
  | String _ r => contains sub r
  end.

(** [s.split(c)] for a one-character separator. *)
Fixpoint split (c : ascii) (s : string) : list string :=
  match s with
  | EmptyString => [EmptyString]
  | String a r =>
      if Ascii.eqb a c then EmptyString :: split c r
      else match split c r with
           | h :: t => String a h :: t
           | [] => [String a EmptyString]
           end
  end.

(** [s.split(c, n)]: at most [n] cuts. *)
Fixpoint splitn (c : ascii) (n : nat) (s : string) {struct s} : list string :=
  match n with
  | 0 => [s]
  | S n' =>
      match s with
      | EmptyString => [EmptyString]
      | String a r =>
          if Ascii.eqb a c then EmptyString :: splitn c n' r
          else match splitn c (S n') r with
               | h :: t => String a h :: t
               | [] => [String a EmptyString]
               end
      end
  end.

(** The code points below 256 that [str.strip] removes. *)
Definition is_space (c : ascii) : bool :=
  let n := nat_of_ascii c in
  (((9 <=? n) && (n <=? 13)) || ((28 <=? n) && (n <=? 32))
   || (n =? 133) || (n =? 160))%nat.

Fixpoint lstrip (s : string) : string :=
  match s with
  | EmptyString => EmptyString
  | String c r => if is_space c then lstrip r else s
  end.

Fixpoint rstrip (s : string) : string :=
  match s with
  | EmptyString => EmptyString
  | String c r =>
      match rstrip r with
      | EmptyString => if is_space c then EmptyString else String c EmptyString
      | r' => String c r'
      end
  end.

Definition strip (s : string) : string := rstrip (lstrip s).

(** Truth value of a string, and of a value that may be [None]. *)
Definition nonempty (s : string) : bool :=
  match s with EmptyString => false | String _ _ => true end.

Definition truthy (o : option string) : bool :=
  match o with Some s => nonempty s | None => false end.

(** [d.get(key, default)] with the empty string as default. *)
Definition get_or_empty (o : option string) : string :=
  match o with Some s => s | None => EmptyString end.

End PyStr.

Import PyStr.

(** ** Exceptions and results *)

Inductive exn : Type :=
| IndexError
| KeyError (key : string)
| AttributeError
| SystemExit (code : nat).

Inductive result (A : Type) : Type :=
| Ok (a : A)
| Raise (e : exn).
Arguments Ok {A} a.
Arguments Raise {A} e.

Definition bind {A B : Type} (m : result A) (k : A -> result B) : result B :=
  match m with
  | Ok a => k a
  | Raise e => Raise e
  end.

Notation "x <- m ;; k" := (bind m (fun x => k))
  (at level 61, m at next level, right associativity).

(** ** Data *)

(** A rule as [load_tag_rules] stores it:
    [{"Key": ..., "Value": ..., "Partial": ...}].  [Key] and [Value] are the
    fields [row["TagKey"]] and [row["TagValue"]], which are [None] for a
    record too short to reach those columns. *)
Record rule : Type := mkRule {
  Key : option string;
  Value : option string;
  Partial : bool
}.

(** [tag_map]: filter key to rule list, in insertion order of the keys. *)
Definition tag_map : Type := list (string * list rule).

(** One tag of a resource, a dict read with [tag.get("Key")] and
    [tag.get("Value")]. *)
Record res_tag : Type := mkTag { tag_Key : option string; tag_Value : option string }.

(** A resource record, a dict read with [res.get(...)]; [Tags] is the list
    [res.get("Tags", [])]. *)
Record resource : Type := mkResource {
  Arn : option string;
  Service : option string;
  ResourceType : option string;
  Tags : list res_tag
}.

(** One row of the dict reader: column name to field, [None] for a column
    the record is too short to reach. *)
Definition csv_row : Type := list (string * option string).

(** A plan row [(arn, tag["Key"], tag["Value"])]. *)
Definition row : Type := (string * option string * option string)%type.

(** An entry of the [tags] list built per resource: its "Key" and "Value". *)
Definition tag_kv : Type := (option string * option string)%type.

(** One constructor per [logging.info] call of the rule loader and of the
    plan writer. *)
Inductive log_entry : Type :=
| LogSkipRule (r : csv_row)
| LogTagRule (r : csv_row)
| LogRegionMismatch (arn arn_region : string)
| LogWrote (arn : string) (k v : option string)
| LogNoMatch (arn service : string).

(** ** Dictionaries *)

(** [d.get(k, [])] on the rule table. *)
Fixpoint dict_get (d : tag_map) (k : string) : list rule :=
  match d with
  | [] => []
  | (k', v) :: rest => if String.eqb k' k then v else dict_get rest k
  end.

(** [d[k].append(r)] on a [defaultdict(list)]: a new key goes last. *)
Fixpoint dict_append (d : tag_map) (k : string) (r : rule) : tag_map :=
  match d with
  | [] => [(k, [r])]
  | (k', v) :: rest =>
      if String.eqb k' k then (k', v ++ [r]) :: rest
      else (k', v) :: dict_append rest k r
  end.

(** [row[col]]: [KeyError] when the column is absent. *)
Fixpoint row_get (r : csv_row) (col : string) : result (option string) :=
  match r with
  | [] => Raise (KeyError col)
  | (c, v) :: rest => if String.eqb c col then Ok v else row_get rest col
  end.

(** [keys.add(x)] on a set kept as the list of its distinct elements. *)
Definition set_add (x : string) (keys : list string) : list string :=
  if existsb (String.eqb x) keys then keys else keys ++ [x].

(** ** load_tag_rules *)

(** The body of [for row in reader], threading [tag_map] and the log. *)
Fixpoint load_rows (rows : list csv_row) (tm : tag_map) (lg : list log_entry)
  : result (tag_map * list log_entry) :=
  match rows with
  | [] => Ok (tm, lg)
  | r :: rest =>
      f <- row_get r "Filter" ;;
      match f with
      | None => Raise AttributeError
      | Some f =>
          let filter_value := strip f in
          if negb (nonempty filter_value) || startswith "#" filter_value then
            load_rows rest tm (lg ++ [LogSkipRule r])
          else
            let partial := startswith "~" filter_value in
            let filter_value :=
              if partial then
                match filter_value with
                | String _ tl => tl
                | EmptyString => EmptyString
                end
              else filter_value in
            let lg := lg ++ [LogTagRule r] in
            k <- row_get r "TagKey" ;;
            v <- row_get r "TagValue" ;;
            load_rows rest
              (dict_append tm (lower filter_value) (mkRule k v partial)) lg
      end
  end.

(** [load_tag_rules(path)], with [reader] the rows [csv.DictReader] yields
    for the file at [path]. *)
Definition load_tag_rules (path : string) (reader : list csv_row)
  : result (tag_map * list log_entry) :=
  if negb (endswith ".csv" path) then Raise (SystemExit 1)
  else load_rows reader [] [].

(** [d[col] = v] on a row dict. *)
Fixpoint row_set (r : csv_row) (col : string) (v : option string) : csv_row :=
  match r with
  | [] => [(col, v)]
  | (c, x) :: rest =>
      if String.eqb c col then (c, v) :: rest
      else (c, x) :: row_set rest col v
  end.

(** The dict the reader builds for one record: [dict(zip(fieldnames, row))],
    in which a repeated column name keeps its last field, then
    [d[key] = None] for the columns of [fieldnames[len(row):]], those the
    record is too short to reach.  The fields of a record longer than the
    header go under the key [None], which the script never reads; they are
    left out. *)
Definition dict_row (header fields : list string) : csv_row :=
  fold_left (fun d c => row_set d c None)
            (skipn (length fields) header)
            (fold_left (fun d cf => row_set d (fst cf) (Some (snd cf)))
                       (combine header fields) []).

(** The rows [csv.DictReader] yields for a file with the given header line
    and the given records: one dict per record, empty records (blank lines)
    passed over. *)
Definition DictReader (header : list string) (records : list (list string))
  : list csv_row :=
  map (dict_row header)
      (filter (fun fields => match fields with [] => false | _ => true end) records).

(** ** get_match_keys and get_resource_name *)

Definition get_match_keys (service subtype arn : string) (name : option string)
  : list string :=
  let keys := [] in
  let keys := if nonempty arn then set_add arn keys else keys in
  let keys := match name with
              | Some n => if nonempty n then set_add n keys else keys
              | None => keys
              end in
  let keys :=
    if nonempty subtype then
      let subtype := lower subtype in
      if contains ":" subtype then set_add subtype keys
      else set_add (lower service ++ ":" ++ subtype) keys
    else keys in
  set_add (lower service) keys.

Fixpoint get_resource_name (tags : list res_tag) : option string :=
  match tags with
  | [] => None
  | t :: rest =>
      match tag_Key t with
      | Some k => if String.eqb k "Name" then tag_Value t else get_resource_name rest
      | None => get_resource_name rest
      end
  end.

(** ** write_plan *)

(** The state the loop of [write_plan] updates: the rows written to the plan
    file after its header, the set [written], and the log. *)
Record plan_state : Type := mkState {
  out : list row;
  written : list row;
  log : list log_entry
}.

(** Equality of two fields that may be [None]. *)
Definition field_eqb (a b : option string) : bool :=
  match a, b with
  | Some x, Some y => String.eqb x y
  | None, None => true
  | _, _ => false
  end.

Definition row_eqb (a b : row) : bool :=
  let '(a1, a2, a3) := a in
  let '(b1, b2, b3) := b in
  String.eqb a1 b1 && field_eqb a2 b2 && field_eqb a3 b3.

(** [row in written]. *)
Definition row_in (r : row) (s : list row) : bool := existsb (row_eqb r) s.

(** What one pass of the loop body gives: the next state, or an exception
    raised in the state reached. *)
Inductive body_result : Type :=
| Next (st : plan_state)
| Raised (e : exn) (st : plan_state).

(** [{"Key": rule["Key"], "Value": rule["Value"]}]. *)
Definition kv_of (r : rule) : tag_kv := (Key r, Value r).

(** [for tag in tags: ...]: write the rows not yet in [written]. *)
Fixpoint write_rows (arn : string) (tags : list tag_kv) (st : plan_state)
  : plan_state :=
  match tags with
  | [] => st
  | (k, v) :: rest =>
      let r : row := (arn, k, v) in
      if row_in r (written st) then write_rows arn rest st
      else write_rows arn rest
             (mkState (out st ++ [r]) (r :: written st)
                      (log st ++ [LogWrote arn k v]))
  end.

(** The test [write_plan] applies to one tag of the resource for a parsed
    filter [tag:<tag_key>:<tag_value_filter>] ([partial] when the value
    began with a tilde). *)
Definition tag_matches (tag_key : string) (partial : bool)
  (tag_value_filter : string) (tag : res_tag) : bool :=
  if String.eqb (lower (get_or_empty (tag_Key tag))) (lower tag_key) then
    let resource_tag_value := get_or_empty (tag_Value tag) in
    (partial && contains (lower tag_value_filter) (lower resource_tag_value))
    || (negb partial
        && String.eqb (lower resource_tag_value) (lower tag_value_filter))
  else false.

(** The tags one entry [(rule_key, rule_list)] of the rule table emits in the
    tag-filter step. *)
Definition tag_filter_rule (rule_key : string) (rule_list : list rule)
  (res_tags : list res_tag) : list tag_kv :=
  if startswith "tag:" rule_key then
    match splitn ":" 2 rule_key with
    | [_; tag_key; tag_value] =>
        let partial := startswith "~" tag_value in
        let tag_value_filter :=
          if partial then
            match tag_value with
            | String _ tl => tl
            | EmptyString => EmptyString
            end
          else tag_value in
        flat_map
          (fun tag =>
             if tag_matches tag_key partial tag_value_filter tag
             then map kv_of rule_list else [])
          res_tags
    | _ => []
    end
  else [].

Section Plan.

(** The order in which [for key in match_keys] visits the set. *)
Variable set_iter : list string -> list string.

Variable tag_rules : tag_map.
Variable region_filter : string.

(** Exact matches. *)
Definition exact_tags (match_keys : list string) : list tag_kv :=
  flat_map
    (fun key =>
       flat_map (fun r => if Partial r then [] else [kv_of r])
                (dict_get tag_rules key))
    (set_iter match_keys).

(** Partial matches for Name. *)
Definition partial_tags (name_value : option string) : list tag_kv :=
  match name_value with
  | Some name =>
      if nonempty name then
        flat_map
          (fun '(rule_key, rule_list) =>
             flat_map
               (fun r => if Partial r && contains rule_key name
                         then [kv_of r] else [])
               rule_list)
          tag_rules
      else []
  | None => []
  end.

(** Tag key/value filter. *)
Definition tag_filter_tags (res_tags : list res_tag) : list tag_kv :=
  flat_map
    (fun '(rule_key, rule_list) =>
       tag_filter_rule rule_key rule_list res_tags)
    tag_rules.

(** The list [tags] when the three matching steps are done. *)
Definition matched_tags (service subtype arn : string) (res_tags : list res_tag)
  : list tag_kv :=
  let name_value := get_resource_name res_tags in
  let match_keys := get_match_keys service subtype arn name_value in
  exact_tags match_keys ++ partial_tags name_value ++ tag_filter_tags res_tags.

(** [tags += tag_rules.get("all", [])]. *)
Definition all_tags : list tag_kv := map kv_of (dict_get tag_rules "all").

(** The body of [for res in resources]. *)
Definition plan_body (res : resource) (st : plan_state) : body_result :=
  let subtype := get_or_empty (ResourceType res) in
  match Arn res, Service res with
  | Some arn, Some service =>
      if negb (nonempty arn) || negb (nonempty service) then Next st
      else
        let arn_parts := split ":" arn in
        match nth_error arn_parts 3 with
        | None => Raised IndexError st
        | Some arn_region =>
            if nonempty arn_region && negb (String.eqb arn_region region_filter)
            then Next (mkState (out st) (written st)
                               (log st ++ [LogRegionMismatch arn arn_region]))
            else
              let tags := matched_tags service subtype arn (Tags res) in
              match tags with
              | [] => Next (mkState (out st) (written st)
                                    (log st ++ [LogNoMatch arn service]))
              | _ :: _ => Next (write_rows arn (tags ++ all_tags) st)
              end
        end
  | _, _ => Next st
  end.

(** [for res in resources], stopping at the first exception. *)
Fixpoint plan_loop (resources : list resource) (st : plan_state)
  : plan_state * option exn :=
  match resources with
  | [] => (st, None)
  | res :: rest =>
      match plan_body res st with
      | Next st' => plan_loop rest st'
      | Raised e st' => (st', Some e)
      end
  end.

(** [write_plan(resources, tag_rules, output_csv, region_filter)]: the
    state at the end of the loop and the exception that ended it, if any. *)
Definition write_plan (resources : list resource) : plan_state * option exn :=
  plan_loop resources (mkState [] [] []).

End Plan.

(** The header [write_plan] writes first, and the lines of the plan file;
    [csv.writer] writes a [None] field as the empty field. *)
Definition plan_header : list string := ["ResourceARN"; "TagKey"; "TagValue"].

Definition plan_lines (st : plan_state) : list (list string) :=
  plan_header
  :: map (fun '(a, k, v) => [a; get_or_empty k; get_or_empty v]) (out st).

(** ** main *)

(** The calls [main] makes to the services it uses, in order. *)
Inductive event : Type :=
| GetCallerIdentity
| ListViews
| ListResources
| GetResourceTags
| PlanWritten (lines : list (list string)).

(** [main()]: [reader] is what the dict reader yields for the file named by
    [--tags], [view_arn] what [get_view_arn] returns and [resources] what
    [get_tags_for_resources(get_all_resources(...))] returns.  The result is
    the trace of calls and the exception that ended the run, if any. *)
Definition main (set_iter : list string -> list string)
  (tags_path : string) (reader : list csv_row) (region : string)
  (view_arn : option string) (resources : list resource)
  : list event * option exn :=
  let trace := [GetCallerIdentity] in
  match load_tag_rules tags_path reader with
  | Raise e => (trace, Some e)
  | Ok (tag_rules, _) =>
      let trace := trace ++ [ListViews] in
      if negb (truthy view_arn) then (trace, Some (SystemExit 1))
      else
        let trace := trace ++ [ListResources; GetResourceTags] in
        let '(st, e) := write_plan set_iter tag_rules region resources in
        (trace ++ [PlanWritten (plan_lines st)], e)
  end.

(** ** Views of the loop used in the statements *)

(** A set iteration visits every element of the set once. *)
Definition set_order (set_iter : list string -> list string) : Prop :=
  forall keys, Permutation (set_iter keys) keys.

(** The rows of [l] not in [seen], each at its first occurrence. *)
Fixpoint first_occurrences (seen : list row) (l : list row) : list row :=
  match l with
  | [] => []
  | r :: rest =>
      if row_in r seen then first_occurrences seen rest
      else r :: first_occurrences (r :: seen) rest
  end.

(** The resource makes the loop body raise. *)
Definition body_raises (res : resource) : bool :=
  match Arn res, Service res with
  | Some arn, Some service =>
      nonempty arn && nonempty service &&
      match nth_error (split ":" arn) 3 with None => true | Some _ => false end
  | _, _ => false
  end.

(** The rows the loop body offers to the plan for one resource, before the
    test against [written]. *)
Definition body_rows (set_iter : list string -> list string)
  (tag_rules : tag_map) (region_filter : string) (res : resource) : list row :=
  let subtype := get_or_empty (ResourceType res) in
  match Arn res, Service res with
  | Some arn, Some service =>
      if negb (nonempty arn) || negb (nonempty service) then []
      else
        match nth_error (split ":" arn) 3 with
        | None => []
        | Some arn_region =>
            if nonempty arn_region && negb (String.eqb arn_region region_filter)
            then []
            else
              match matched_tags set_iter tag_rules service subtype arn (Tags res) with
              | [] => []
              | t :: ts =>
                  map (fun '(k, v) => (arn, k, v))
                      ((t :: ts) ++ all_tags tag_rules)
              end
        end
  | _, _ => []
  end.

(** The resources the loop reaches and completes: those before the first
    one that raises. *)
Fixpoint run_prefix (resources : list resource) : list resource :=
  match resources with
  | [] => []
  | res :: rest => if body_raises res then [] else res :: run_prefix rest
  end.

(** A record accepted as a rule: its filter is neither blank nor a comment. *)
Definition accepted (r : csv_row) : bool :=
  match row_get r "Filter" with
  | Ok (Some f) => nonempty (strip f) && negb (startswith "#" (strip f))
  | _ => false
  end.

(** The rule of the specification that follows its words for a tag-value
    filter: a leading tilde asks for containment of the rest, otherwise for
    equality, both without regard to case. *)
Definition value_filter_holds (tag_value_filter value : string) : bool :=
  if startswith "~" tag_value_filter then
    contains (lower (match tag_value_filter with
                     | String _ tl => tl
                     | EmptyString => EmptyString
                     end))
             (lower value)
  else String.eqb (lower value) (lower tag_value_filter).

(** ** Sample inputs *)

(** Two orders a set iteration may take. *)
Definition insertion_order (keys : list string) : list string := keys.
Definition reverse_order (keys : list string) : list string := rev keys.

Definition rules_header : list string := ["Filter"; "TagKey"; "TagValue"].

(** An EC2 instance of region us-west-2 with the given [Name] tag. *)
Definition named_instance (name : string) : resource :=
  mkResource (Some "arn:aws:ec2:us-west-2:111122223333:instance/i-0abc")
             (Some "ec2") (Some "ec2:instance")
             [mkTag (Some "Name") (Some name);
              mkTag (Some "Environment") (Some "devPROD")].

(** The rule table of a file with one service rule and one type rule. *)
Definition service_and_type_rules : tag_map :=
  [("ec2", [mkRule (Some "Schedule") (Some "24x7") false]);
   ("ec2:instance", [mkRule (Some "Backup") (Some "Daily") false]);
   ("all", [mkRule (Some "Owner") (Some "Team") false])].

(** The rule table [load_tag_rules] builds from a file tags.csv with the
    three-column header and the given records. *)
Definition loaded_rules (records : list (list string)) : tag_map :=
  match load_tag_rules "tags.csv" (DictReader rules_header records) with
  | Ok (tm, _) => tm
  | Raise _ => []
  end.

(** ** get_view_arn *)

(** [for page in paginator.paginate(): for view in page.get("Views", [])],
    over the views of all pages in order: the first view whose name part
    equals [view_name], [IndexError] at [view_parts[5]] for a view with
    fewer than six fields met before. *)
Fixpoint find_view (views : list string) (view_name : string)
  : result (option string) :=
  match views with
  | [] => Ok None
  | view :: rest =>
      let view_parts := split ":" view in
      match nth_error view_parts 5 with
      | None => Raise IndexError
      | Some full_view_name =>
          let full_view_name_parts := split "/" full_view_name in
          if (3 <=? length full_view_name_parts)%nat then
            match nth_error full_view_name_parts
                            (length full_view_name_parts - 2) with
            | Some rex_view_name =>
                if String.eqb rex_view_name view_name then Ok (Some view)
                else find_view rest view_name
            | None => find_view rest view_name
            end
          else find_view rest view_name
      end
  end.

(** [get_view_arn(region, view_name)], with [pages] the [Views] lists of the
    pages the paginator yields. *)
Definition get_view_arn (pages : list (list string)) (view_name : string)
  : result (option string) :=
  find_view (concat pages) view_name.

(** ** get_tags_for_resources *)

(** A resource as [get_all_resources] returns it, before tags are attached. *)
Record listed_resource : Type := mkListed {
  l_Arn : option string;
  l_Region : option string;
  l_Service : option string;
  l_ResourceType : option string
}.

(** One entry of [ResourceTagMappingList]; [mapping_Tags] is
    [mapping.get("Tags", [])]. *)
Record tag_mapping : Type := mkMapping {
  ResourceARN : string;
  mapping_Tags : list res_tag
}.

(** [client.get_resources(ResourceARNList=batch)] of the client of a region:
    the list [response.get("ResourceTagMappingList", [])], or [None] when the
    call raises. *)
Definition tagging_api : Type :=
  string -> list string -> option (list tag_mapping).

(** The region whose client is asked for the tags of a resource. *)
Definition client_region_of (res : listed_resource) : string :=
  let region :=
    if truthy (l_Region res) then get_or_empty (l_Region res) else "global" in
  if String.eqb region "global" then "us-east-1" else region.

(** [arns_by_region[k].append(x)] on a [defaultdict(list)]. *)
Fixpoint group_append (d : list (string * list string)) (k x : string)
  : list (string * list string) :=
  match d with
  | [] => [(k, [x])]
  | (k', v) :: rest =>
      if String.eqb k' k then (k', v ++ [x]) :: rest
      else (k', v) :: group_append rest k x
  end.

(** The first loop: ARNs grouped by client region. *)
Definition arns_by_region (resources : list listed_resource)
  : list (string * list string) :=
  fold_left
    (fun d res => group_append d (client_region_of res) (get_or_empty (l_Arn res)))
    resources [].

(** [arn_list[i : i + 100] for i in range(0, len(arn_list), 100)]. *)
Definition batches (arn_list : list string) : list (list string) :=
  map (fun j => firstn 100 (skipn (100 * j) arn_list))
      (seq 0 ((length arn_list + 99) / 100)).

(** [tags_map[arn] = tags] and [tags_map.get(arn, [])]. *)
Fixpoint tags_set (tags_map : list (string * list res_tag)) (arn : string)
  (tags : list res_tag) : list (string * list res_tag) :=
  match tags_map with
  | [] => [(arn, tags)]
  | (a, t) :: rest =>
      if String.eqb a arn then (a, tags) :: rest
      else (a, t) :: tags_set rest arn tags
  end.

Fixpoint tags_get (tags_map : list (string * list res_tag)) (arn : string)
  : list res_tag :=
  match tags_map with
  | [] => []
  | (a, t) :: rest => if String.eqb a arn then t else tags_get rest arn
  end.

(** [for mapping in response.get("ResourceTagMappingList", [])]. *)
Definition store_mappings (tags_map : list (string * list res_tag))
  (mappings : list tag_mapping) : list (string * list res_tag) :=
  fold_left (fun tm m => tags_set tm (ResourceARN m) (mapping_Tags m))
            mappings tags_map.

(** One batch: the mappings of the response are stored; a call that raises
    is recorded (the line the script logs) and the loop goes on. *)
Definition fetch_batch (api : tagging_api) (client_region : string)
  (acc : list (string * list res_tag) * list (string * list string))
  (batch : list string)
  : list (string * list res_tag) * list (string * list string) :=
  match api client_region batch with
  | None => (fst acc, snd acc ++ [(client_region, batch)])
  | Some mappings => (store_mappings (fst acc) mappings, snd acc)
  end.

(** The second loop: every region, every batch of its ARNs. *)
Definition fetch_tags (api : tagging_api) (resources : list listed_resource)
  : list (string * list res_tag) * list (string * list string) :=
  fold_left
    (fun acc entry =>
       fold_left (fetch_batch api (fst entry)) (batches (snd entry)) acc)
    (arns_by_region resources) ([], []).

(** [get_tags_for_resources(resources)]: the resources with [Tags] attached,
    and the batches whose lookup failed. *)
Definition get_tags_for_resources (api : tagging_api)
  (resources : list listed_resource)
  : list resource * list (string * list string) :=
  let acc := fetch_tags api resources in
  (map (fun res =>
          mkResource (l_Arn res) (l_Service res) (l_ResourceType res)
                     (tags_get (fst acc) (get_or_empty (l_Arn res))))
       resources,
   snd acc).

(** ** Further views used in the statements *)

(** What one record of the rule file contributes: nothing for a blank or
    comment record, otherwise the key and the rule the loop body appends. *)
Definition rule_of_record (r : csv_row) : result (option (string * rule)) :=
  f <- row_get r "Filter" ;;
  match f with
  | None => Raise AttributeError
  | Some f =>
      let filter_value := strip f in
      if negb (nonempty filter_value) || startswith "#" filter_value then Ok None
      else
        let partial := startswith "~" filter_value in
        let filter_value :=
          if partial then
            match filter_value with
            | String _ tl => tl
            | EmptyString => EmptyString
            end
          else filter_value in
        k <- row_get r "TagKey" ;;
        v <- row_get r "TagValue" ;;
        Ok (Some (lower filter_value, mkRule k v partial))
  end.

(** The rules a list of records stores under one key, in file order. *)
Definition rules_under (key : string) (rows : list csv_row) : list rule :=
  flat_map
    (fun r =>
       match rule_of_record r with
       | Ok (Some (k, rl)) => if String.eqb k key then [rl] else []
       | _ => []
       end)
    rows.

(** The lookups [get_tags_for_resources] makes: region and batch, in order. *)
Definition tag_requests (resources : list listed_resource)
  : list (string * list string) :=
  flat_map (fun entry => map (fun b => (fst entry, b)) (batches (snd entry)))
           (arns_by_region resources).

(** The rows the log reports as written. *)
Definition wrote_rows (lg : list log_entry) : list row :=
  flat_map
    (fun e => match e with LogWrote a k v => [(a, k, v)] | _ => [] end)
    lg.

(** A view of the default view name, and a page of views. *)
Definition sample_view : string :=
  "arn:aws:resource-explorer-2:us-west-2:111122223333:view/all-resources-with-tags/0a1b".

Definition sample_pages : list (list string) :=
  [["arn:aws:resource-explorer-2:us-west-2:111122223333:view/other/9f"];
   [sample_view]].

(** A tagging service that knows the tags of every ARN it is asked about. *)
Definition answering_api (tags_of : string -> list res_tag) : tagging_api :=
  fun _ batch => Some (map (fun a => mkMapping a (tags_of a)) batch).

(** A tagging service whose every call raises. *)
Definition failing_api : tagging_api := fun _ _ => None.

Definition sample_listed : list listed_resource :=
  [mkListed (Some "arn:aws:ec2:us-west-2:111122223333:instance/i-0abc")
            (Some "us-west-2") (Some "ec2") (Some "ec2:instance");
   mkListed (Some "arn:aws:s3:::bucket") None (Some "s3") (Some "s3:bucket");
   mkListed (Some "arn:aws:iam::111122223333:role/Admin") (Some "global")
            (Some "iam") (Some "iam:role")].

(** Records of a rule file: two spellings of one type filter, a comment, a
    partial name and the catch-all. *)
Definition sample_records : list (list string) :=
  [["ec2:instance"; "Backup"; "Daily"];
   ["# owners"; "x"; "y"];
   ["EC2:Instance"; "Owner"; "Ops"];
   ["~Web"; "Application"; "CRM"];
   ["all"; "BusinessUnit"; "Digital"]].

(** [x] is in the list the grouping holds under [k]. *)
Definition grouped (d : list (string * list string)) (k x : string) : Prop :=
  exists l, In (k, l) d /\ In x l.

(** Whether the service refuses a lookup. *)
Definition refused (api : tagging_api) (req : string * list string) : bool :=
  match api (fst req) (snd req) with None => true | Some _ => false end.

(** The set [written] and the log agree with the rows written. *)
Definition mirrors (st : plan_state) : Prop :=
  written st = rev (out st) /\ wrote_rows (log st) = out st.

(** A rule table with one tag filter. *)
Definition tag_filter_rules : tag_map :=
  [("tag:environment:~pro", [mkRule (Some "Tier") (Some "Production") false])].

(** * Properties *)

(** ** Row sets and first occurrences *)

Lemma field_eqb_eq (a b : option string) : field_eqb a b = true <-> a = b.
Proof.
  destruct a as [x|], b as [y|]; simpl.
  - rewrite String.eqb_eq. split; [intros ->; reflexivity | intros H; now inversion H].
  - split; discriminate.
  - split; discriminate.
  - split; reflexivity.
Qed.

Lemma row_eqb_eq (a b : row) : row_eqb a b = true <-> a = b.
Proof.
  destruct a as [[a1 a2] a3], b as [[b1 b2] b3]; simpl.
  rewrite !andb_true_iff, !field_eqb_eq, String.eqb_eq.
  split.
  - intros [[-> ->] ->]; reflexivity.
  - intros H; inversion H; auto.
Qed.

Lemma row_in_In (r : row) (s : list row) : row_in r s = true <-> In r s.
Proof.
  unfold row_in. rewrite existsb_exists. split.
  - intros [x [Hx He]]. apply row_eqb_eq in He. now subst.
  - intros H. exists r. split; [assumption | now apply row_eqb_eq].
Qed.

Lemma row_in_false (r : row) (s : list row) : row_in r s = false <-> ~ In r s.
Proof.
  rewrite <- row_in_In. destruct (row_in r s); split; congruence.
Qed.

Lemma first_occurrences_In (seen l : list row) (x : row) :
  In x (first_occurrences seen l) <-> In x l /\ ~ In x seen.
Proof.
  revert seen. induction l as [|r rest IH]; intros seen; simpl.
  - tauto.
  - destruct (row_in r seen) eqn:E.
    + rewrite IH. apply row_in_In in E. split.
      * intros [H1 H2]; auto.
      * intros [[->|H1] H2]; [contradiction | auto].
    + apply row_in_false in E. simpl. rewrite IH. simpl. split.
      * intros [->|[H1 H2]]; [auto|]. split; auto.
      * intros [[->|H1] H2]; [auto|].
        destruct (row_eqb r x) eqn:Ex.
        -- apply row_eqb_eq in Ex. auto.
        -- right. split; [assumption|]. intros [->|H3]; [|contradiction].
           assert (row_eqb x x = true) by now apply row_eqb_eq.
           congruence.
Qed.

Lemma first_occurrences_NoDup (seen l : list row) :
  NoDup (first_occurrences seen l).
Proof.
  revert seen. induction l as [|r rest IH]; intros seen; simpl.
  - constructor.
  - destruct (row_in r seen); [apply IH|].
    constructor; [|apply IH].
    rewrite first_occurrences_In. simpl. tauto.
Qed.

Lemma first_occurrences_app (seen l1 l2 : list row) :
  first_occurrences seen (l1 ++ l2) =
  first_occurrences seen l1
  ++ first_occurrences (rev (first_occurrences seen l1) ++ seen) l2.
Proof.
  revert seen. induction l1 as [|r rest IH]; intros seen; simpl.
  - reflexivity.
  - destruct (row_in r seen); [apply IH|].
    simpl. rewrite IH. rewrite <- app_assoc. reflexivity.
Qed.

(** ** The loop of write_plan as a fold of first occurrences *)

Lemma write_rows_spec (arn : string) (tags : list tag_kv) (st : plan_state) :
  out (write_rows arn tags st) =
    out st ++ first_occurrences (written st) (map (fun '(k, v) => (arn, k, v)) tags)
  /\ written (write_rows arn tags st) =
    rev (first_occurrences (written st) (map (fun '(k, v) => (arn, k, v)) tags))
    ++ written st.
Proof.
  revert st. induction tags as [|[k v] rest IH]; intros st; simpl.
  - now rewrite app_nil_r.
  - destruct (row_in (arn, k, v) (written st)); [apply IH|].
    destruct (IH (mkState (out st ++ [(arn, k, v)]) ((arn, k, v) :: written st)
                          (log st ++ [LogWrote arn k v]))) as [Ho Hw].
    simpl in Ho, Hw. split.
    + etransitivity; [exact Ho|]. now rewrite <- app_assoc.
    + etransitivity; [exact Hw|]. simpl. now rewrite <- app_assoc.
Qed.

Section LoopFacts.

Variable set_iter : list string -> list string.
Variable tag_rules : tag_map.
Variable region_filter : string.

Let body := plan_body set_iter tag_rules region_filter.
Let rows_of := body_rows set_iter tag_rules region_filter.
Let loop := plan_loop set_iter tag_rules region_filter.

Lemma plan_body_raises (res : resource) (st : plan_state) :
  body_raises res = true -> body res st = Raised IndexError st.
Proof.
  unfold body, plan_body, body_raises.
  destruct (Arn res) as [arn|]; [|intros H; discriminate H].
  destruct (Service res) as [service|]; [|intros H; discriminate H].
  destruct (nonempty arn); [|intros H; discriminate H].
  destruct (nonempty service); [|intros H; discriminate H].
  destruct (nth_error (split ":" arn) 3); [intros H; discriminate H | reflexivity].
Qed.

Lemma plan_body_next (res : resource) (st : plan_state) :
  body_raises res = false ->
  exists st',
    body res st = Next st'
    /\ out st' = out st ++ first_occurrences (written st) (rows_of res)
    /\ written st' = rev (first_occurrences (written st) (rows_of res)) ++ written st.
Proof.
  assert (Hskip : exists st', Next st = Next st'
                   /\ out st' = out st ++ first_occurrences (written st) []
                   /\ written st' = rev (first_occurrences (written st) []) ++ written st)
    by (exists st; simpl; now rewrite app_nil_r).
  unfold body, rows_of, plan_body, body_rows, body_raises.
  destruct (Arn res) as [arn|]; [|intros _; exact Hskip].
  destruct (Service res) as [service|]; [|intros _; exact Hskip].
  destruct (nonempty arn); [|intros _; exact Hskip].
  destruct (nonempty service); [|intros _; exact Hskip].
  destruct (nth_error (split ":" arn) 3) as [rg|];
    [intros _ | intros H; discriminate H].
  cbn [negb orb].
  destruct (nonempty rg && negb (String.eqb rg region_filter)).
  - eexists; split; [reflexivity|]; simpl. now rewrite app_nil_r.
  - destruct (matched_tags _ _ _ _ _ _) as [|t ts].
    + eexists; split; [reflexivity|]; simpl. now rewrite app_nil_r.
    + eexists; split; [reflexivity|]. apply write_rows_spec.
Qed.

Lemma plan_loop_spec (resources : list resource) (st : plan_state) :
  let new := first_occurrences (written st)
               (flat_map rows_of (run_prefix resources)) in
  out (fst (loop resources st)) = out st ++ new
  /\ written (fst (loop resources st)) = rev new ++ written st
  /\ snd (loop resources st) =
       if forallb (fun res => negb (body_raises res)) resources
       then None else Some IndexError.
Proof.
  revert st. induction resources as [|res rest IH]; intros st; simpl.
  - rewrite app_nil_r. auto.
  - destruct (body_raises res) eqn:E; simpl.
    + unfold loop; simpl. fold body. rewrite (plan_body_raises res st E). simpl.
      rewrite app_nil_r. auto.
    + destruct (plan_body_next res st E) as [st' [Hb [Ho Hw]]].
      unfold loop; simpl. fold body. rewrite Hb. fold loop.
      destruct (IH st') as [IHo [IHw IHe]].
      rewrite IHo, IHw, IHe, Ho, Hw, first_occurrences_app.
      rewrite rev_app_distr, <- !app_assoc. auto.
Qed.

Lemma write_plan_spec (resources : list resource) :
  out (fst (write_plan set_iter tag_rules region_filter resources)) =
    first_occurrences [] (flat_map rows_of (run_prefix resources))
  /\ snd (write_plan set_iter tag_rules region_filter resources) =
       if forallb (fun res => negb (body_raises res)) resources
       then None else Some IndexError.
Proof.
  unfold write_plan.
  destruct (plan_loop_spec resources (mkState [] [] [])) as [Ho [_ He]].
  split; [exact Ho | exact He].
Qed.

Lemma write_plan_In (resources : list resource) (r : row) :
  In r (out (fst (write_plan set_iter tag_rules region_filter resources))) <->
  exists res, In res (run_prefix resources) /\ In r (rows_of res).
Proof.
  destruct (write_plan_spec resources) as [-> _].
  rewrite first_occurrences_In, in_flat_map. simpl. tauto.
Qed.

Lemma run_prefix_In (resources : list resource) (res : resource) :
  In res (run_prefix resources) -> In res resources.
Proof.
  induction resources as [|a rest IH]; simpl; [tauto|].
  destruct (body_raises a); simpl; [tauto|]. intros [->|H]; auto.
Qed.

Lemma run_prefix_all (resources : list resource) :
  forallb (fun res => negb (body_raises res)) resources = true ->
  run_prefix resources = resources.
Proof.
  induction resources as [|a rest IH]; simpl; [reflexivity|].
  destruct (body_raises a); simpl; [discriminate|].
  intros H. now rewrite IH.
Qed.

(** A row offered for a resource carries the resource's ARN, which has a
    fourth field that is empty or the region filter, and comes from its
    tag list. *)
Lemma body_rows_In (res : resource) (a : string) (k v : option string) :
  In (a, k, v) (rows_of res) ->
  exists service rg,
    Arn res = Some a /\ Service res = Some service
    /\ nth_error (split ":" a) 3 = Some rg
    /\ (rg = EmptyString \/ rg = region_filter)
    /\ matched_tags set_iter tag_rules service
         (get_or_empty (ResourceType res))
         a (Tags res) <> []
    /\ In (k, v)
         (matched_tags set_iter tag_rules service
            (get_or_empty (ResourceType res))
            a (Tags res) ++ all_tags tag_rules).
Proof.
  unfold rows_of, body_rows.
  destruct (Arn res) as [arn|]; [|simpl; tauto].
  destruct (Service res) as [service|]; [|simpl; tauto].
  destruct (negb (nonempty arn) || negb (nonempty service)); [simpl; tauto|].
  destruct (nth_error (split ":" arn) 3) as [rg|] eqn:En; [|simpl; tauto].
  destruct (nonempty rg && negb (String.eqb rg region_filter)) eqn:Eg;
    [simpl; tauto|].
  destruct (matched_tags _ _ _ _ _ _) as [|t ts] eqn:Em; [simpl; tauto|].
  intros H. apply in_map_iff in H. destruct H as [[k' v'] [Heq Hin]].
  inversion Heq; subst. exists service, rg.
  split; [reflexivity|]. split; [reflexivity|]. split; [exact En|].
  split; [|split].
  - apply andb_false_iff in Eg. destruct Eg as [Eg|Eg].
    + left. destruct rg; [reflexivity | discriminate].
    + right. apply negb_false_iff in Eg. now apply String.eqb_eq.
  - rewrite Em. discriminate.
  - rewrite Em. exact Hin.
Qed.

End LoopFacts.

(** ** C1: no duplicate rows *)

(** C1. For every rule table, resource list, region filter and set order,
    the rows [write_plan] has written hold no (ARN, tag key, tag value)
    triple twice, whether the run completes or is ended by an exception. *)
Theorem write_plan_no_duplicate_rows :
  forall set_iter tag_rules region_filter resources,
    NoDup (out (fst (write_plan set_iter tag_rules region_filter resources))).
Proof.
  intros. destruct (write_plan_spec set_iter tag_rules region_filter resources)
    as [-> _].
  apply first_occurrences_NoDup.
Qed.

(** ** C2: the catch-all rules *)

Lemma body_rows_proceed set_iter tag_rules region_filter res arn service rg :
  Arn res = Some arn -> Service res = Some service ->
  nonempty arn = true -> nonempty service = true ->
  nth_error (split ":" arn) 3 = Some rg ->
  (rg = EmptyString \/ rg = region_filter) ->
  body_raises res = false
  /\ body_rows set_iter tag_rules region_filter res =
     match matched_tags set_iter tag_rules service
             (get_or_empty (ResourceType res))
             arn (Tags res) with
     | [] => []
     | t :: ts => map (fun '(k, v) => (arn, k, v)) ((t :: ts) ++ all_tags tag_rules)
     end.
Proof.
  intros Ha Hs Hna Hns Hn Hrg. unfold body_raises, body_rows.
  rewrite Ha, Hs, Hna, Hns, Hn. cbn [negb orb andb].
  assert (Hg : nonempty rg && negb (String.eqb rg region_filter) = false).
  { destruct Hrg as [->| ->]; [reflexivity|].
    rewrite String.eqb_refl. apply andb_false_r. }
  rewrite Hg. split; reflexivity.
Qed.

(** C2. For a resource the loop processes (identifier and service present,
    region field empty or equal to the filter): when the exact, partial-name
    and tag-filter steps gave at least one tag, the body writes that list
    followed by every rule under "all", and in a run that completes every
    such rule has its row in the plan; when the steps gave no tag, the body
    writes nothing and only logs that nothing matched. *)
Theorem catch_all_iff_specific_match :
  forall set_iter tag_rules region_filter res arn service rg,
    Arn res = Some arn -> Service res = Some service ->
    nonempty arn = true -> nonempty service = true ->
    nth_error (split ":" arn) 3 = Some rg ->
    (rg = EmptyString \/ rg = region_filter) ->
    let tags :=
      matched_tags set_iter tag_rules service
        (get_or_empty (ResourceType res))
        arn (Tags res) in
    (tags <> [] ->
       (forall st,
          plan_body set_iter tag_rules region_filter res st =
          Next (write_rows arn (tags ++ map kv_of (dict_get tag_rules "all")) st))
       /\ (forall resources r,
             In res resources ->
             snd (write_plan set_iter tag_rules region_filter resources) = None ->
             In r (dict_get tag_rules "all") ->
             In (arn, Key r, Value r)
                (out (fst (write_plan set_iter tag_rules region_filter resources)))))
    /\ (tags = [] ->
        forall st,
          plan_body set_iter tag_rules region_filter res st =
          Next (mkState (out st) (written st) (log st ++ [LogNoMatch arn service]))).
Proof.
  intros set_iter tag_rules region_filter res arn service rg
         Ha Hs Hna Hns Hn Hrg tags.
  assert (Hg : nonempty rg && negb (String.eqb rg region_filter) = false).
  { destruct Hrg as [->| ->]; [reflexivity|].
    rewrite String.eqb_refl. apply andb_false_r. }
  assert (Hbody : forall st,
    plan_body set_iter tag_rules region_filter res st =
    match tags with
    | [] => Next (mkState (out st) (written st) (log st ++ [LogNoMatch arn service]))
    | _ :: _ => Next (write_rows arn (tags ++ all_tags tag_rules) st)
    end).
  { intros st. unfold plan_body. rewrite Ha, Hs, Hna, Hns, Hn.
    cbn [negb orb]. rewrite Hg. reflexivity. }
  split.
  - intros Hne. split.
    + intros st. rewrite Hbody. destruct tags; [congruence | reflexivity].
    + intros resources r Hin Hdone Hr.
      apply write_plan_In.
      destruct (write_plan_spec set_iter tag_rules region_filter resources)
        as [_ He].
      rewrite Hdone in He.
      destruct (forallb (fun x => negb (body_raises x)) resources) eqn:Eall;
        [|discriminate].
      exists res. split.
      * rewrite (run_prefix_all resources Eall). exact Hin.
      * destruct (body_rows_proceed set_iter tag_rules region_filter res arn
                    service rg Ha Hs Hna Hns Hn Hrg) as [_ ->].
        fold tags. destruct tags as [|t ts]; [congruence|].
        apply in_map_iff. exists (Key r, Value r). split; [reflexivity|].
        apply in_or_app. right. unfold all_tags.
        apply in_map_iff. exists r. split; [reflexivity | exact Hr].
  - intros He st. rewrite Hbody, He. reflexivity.
Qed.

Lemma catch_all_iff_specific_match_witness :
  In ("arn:aws:ec2:us-west-2:111122223333:instance/i-0abc", Some "Owner", Some "Team")
     (out (fst (write_plan insertion_order service_and_type_rules "us-west-2"
                  [named_instance "web-01"]))).
Proof.
  destruct (catch_all_iff_specific_match insertion_order service_and_type_rules
              "us-west-2" (named_instance "web-01")
              "arn:aws:ec2:us-west-2:111122223333:instance/i-0abc" "ec2"
              "us-west-2" eq_refl eq_refl eq_refl eq_refl eq_refl
              (or_intror eq_refl)) as [H _].
  destruct H as [_ H]; [vm_compute; discriminate|].
  apply (H [named_instance "web-01"] (mkRule (Some "Owner") (Some "Team") false)).
  - left; reflexivity.
  - vm_compute; reflexivity.
  - vm_compute; auto.
Defined.

(** ** C3: the region guard *)

(** C3, as the script behaves. When the fourth colon-separated field of an
    identifier is non-empty and differs from the region filter, the loop
    body skips every resource with that identifier: it writes no row and
    raises nothing, and it logs the region mismatch when the resource has a
    service, so that it reaches the region test (a record without service
    is skipped one guard earlier, without a log entry); no row with that
    identifier is in the plan of any run. *)
Theorem region_mismatch_never_planned :
  forall set_iter tag_rules region_filter arn rg,
    nth_error (split ":" arn) 3 = Some rg ->
    rg <> EmptyString -> rg <> region_filter ->
    (forall res st,
       Arn res = Some arn ->
       exists st',
         plan_body set_iter tag_rules region_filter res st = Next st'
         /\ out st' = out st /\ written st' = written st
         /\ log st' = if truthy (Service res)
                      then log st ++ [LogRegionMismatch arn rg]
                      else log st)
    /\ (forall resources k v,
          ~ In (arn, k, v)
               (out (fst (write_plan set_iter tag_rules region_filter resources)))).
Proof.
  intros set_iter tag_rules region_filter arn rg Hn Hne Hrg. split.
  - intros res st Ha. unfold plan_body. rewrite Ha.
    destruct (Service res) as [service|]; [|exists st; auto].
    assert (Harn : nonempty arn = true).
    { destruct arn; [simpl in Hn; discriminate | reflexivity]. }
    rewrite Harn. cbn [negb orb truthy].
    destruct (nonempty service); cbn [negb]; [|exists st; auto].
    rewrite Hn.
    assert (Hg : nonempty rg && negb (String.eqb rg region_filter) = true).
    { apply andb_true_iff. split.
      - destruct rg; [congruence | reflexivity].
      - apply negb_true_iff. now apply String.eqb_neq. }
    rewrite Hg. eexists. split; [reflexivity|]. simpl. auto.
  - intros resources k v Hin.
    apply write_plan_In in Hin. destruct Hin as [res [_ Hrow]].
    apply body_rows_In in Hrow.
    destruct Hrow as [service [rg' [_ [_ [Hn' [Hok _]]]]]].
    rewrite Hn in Hn'. inversion Hn'; subst rg'.
    destruct Hok; contradiction.
Qed.

Lemma region_mismatch_never_planned_witness :
  exists st',
    plan_body insertion_order service_and_type_rules "eu-west-1"
      (named_instance "web-01") (mkState [] [] []) = Next st'
    /\ out st' = [] /\ written st' = []
    /\ log st' =
       [LogRegionMismatch "arn:aws:ec2:us-west-2:111122223333:instance/i-0abc"
          "us-west-2"].
Proof.
  assert (Hne : "us-west-2" <> EmptyString) by discriminate.
  assert (Hrg : "us-west-2" <> "eu-west-1") by discriminate.
  exact (proj1 (region_mismatch_never_planned insertion_order
                  service_and_type_rules "eu-west-1"
                  "arn:aws:ec2:us-west-2:111122223333:instance/i-0abc"
                  "us-west-2" eq_refl Hne Hrg)
               (named_instance "web-01") (mkState [] [] []) eq_refl).
Defined.

(** C3, as stated, fails on the log: a record whose region differs from
    the filter and that has no service is skipped by the first guard, before
    the region test, and no region mismatch is logged for it. *)
Lemma region_mismatch_without_service_is_not_logged :
  nth_error (split ":" "arn:aws:ec2:us-west-2:111122223333:instance/i-0abc") 3
  = Some "us-west-2"
  /\ "us-west-2" <> "eu-west-1"
  /\ plan_body insertion_order service_and_type_rules "eu-west-1"
       (mkResource (Some "arn:aws:ec2:us-west-2:111122223333:instance/i-0abc")
                   None (Some "ec2:instance") [])
       (mkState [] [] [])
     = Next (mkState [] [] [])
  /\ write_plan insertion_order service_and_type_rules "eu-west-1"
       [mkResource (Some "arn:aws:ec2:us-west-2:111122223333:instance/i-0abc")
                   None (Some "ec2:instance") []]
     = (mkState [] [] [], None).
Proof.
  split; [reflexivity|]. split; [discriminate|]. split; reflexivity.
Qed.

(** ** C9: resources without identifier or service *)

Lemma plan_loop_skip set_iter tag_rules region_filter res :
  (forall st, plan_body set_iter tag_rules region_filter res st = Next st) ->
  forall before after st,
    plan_loop set_iter tag_rules region_filter (before ++ res :: after) st =
    plan_loop set_iter tag_rules region_filter (before ++ after) st.
Proof.
  intros Hskip before after.
  induction before as [|a rest IH]; intros st; simpl.
  - now rewrite Hskip.
  - destruct (plan_body set_iter tag_rules region_filter a st);
      [apply IH | reflexivity].
Qed.

(** C9. A resource whose identifier or whose service is missing or empty is
    skipped: the loop body leaves the state as it is and raises nothing, and
    the run over a list that holds the resource is the run over the list
    without it. *)
Theorem malformed_resource_skipped :
  forall set_iter tag_rules region_filter res,
    truthy (Arn res) = false \/ truthy (Service res) = false ->
    (forall st, plan_body set_iter tag_rules region_filter res st = Next st)
    /\ (forall before after,
          write_plan set_iter tag_rules region_filter (before ++ res :: after) =
          write_plan set_iter tag_rules region_filter (before ++ after)).
Proof.
  intros set_iter tag_rules region_filter res Hbad.
  assert (Hskip : forall st,
            plan_body set_iter tag_rules region_filter res st = Next st).
  { intros st. unfold plan_body.
    destruct (Arn res) as [arn|]; [|reflexivity].
    destruct (Service res) as [service|]; [|reflexivity].
    simpl in Hbad. destruct Hbad as [-> | ->]; [reflexivity|].
    now rewrite orb_true_r. }
  split; [exact Hskip|].
  intros before after. unfold write_plan. now apply plan_loop_skip.
Qed.

Lemma malformed_resource_skipped_witness :
  write_plan insertion_order service_and_type_rules "us-west-2"
    ([named_instance "a"]
       ++ mkResource (Some "arn:aws:s3:::bucket") None (Some "s3:bucket") []
       :: [named_instance "b"]) =
  write_plan insertion_order service_and_type_rules "us-west-2"
    ([named_instance "a"] ++ [named_instance "b"]).
Proof.
  apply (malformed_resource_skipped insertion_order service_and_type_rules
           "us-west-2"
           (mkResource (Some "arn:aws:s3:::bucket") None (Some "s3:bucket") [])
           (or_intror eq_refl)).
Defined.

(** ** C10: identifiers with fewer than four fields *)

(** C10. A resource with a non-empty identifier and a non-empty service
    whose identifier has fewer than four colon-separated fields makes the
    loop body raise [IndexError] at [arn_parts[3]], and a run over any list
    that holds such a resource ends in [IndexError]. *)
Theorem short_arn_raises_IndexError :
  forall set_iter tag_rules region_filter res arn,
    Arn res = Some arn -> nonempty arn = true ->
    truthy (Service res) = true ->
    length (split ":" arn) < 4 ->
    (forall st,
       plan_body set_iter tag_rules region_filter res st = Raised IndexError st)
    /\ (forall resources,
          In res resources ->
          snd (write_plan set_iter tag_rules region_filter resources)
          = Some IndexError).
Proof.
  intros set_iter tag_rules region_filter res arn Ha Hna Hs Hlen.
  assert (Hr : body_raises res = true).
  { unfold body_raises. rewrite Ha.
    destruct (Service res) as [service|]; [|discriminate].
    simpl in Hs. rewrite Hna, Hs. cbn [andb].
    assert (Hn : nth_error (split ":" arn) 3 = None)
      by (apply nth_error_None; lia).
    now rewrite Hn. }
  split.
  - intros st. now apply plan_body_raises.
  - intros resources Hin.
    destruct (write_plan_spec set_iter tag_rules region_filter resources)
      as [_ ->].
    destruct (forallb (fun x => negb (body_raises x)) resources) eqn:Eall;
      [|reflexivity].
    rewrite forallb_forall in Eall. specialize (Eall res Hin).
    rewrite Hr in Eall. discriminate.
Qed.

Lemma short_arn_raises_IndexError_witness :
  snd (write_plan insertion_order service_and_type_rules "us-west-2"
         [named_instance "a";
          mkResource (Some "i-0abc") (Some "ec2") (Some "ec2:instance") []])
  = Some IndexError.
Proof.
  refine (proj2 (short_arn_raises_IndexError insertion_order
                   service_and_type_rules "us-west-2"
                   (mkResource (Some "i-0abc") (Some "ec2") (Some "ec2:instance") [])
                   "i-0abc" eq_refl eq_refl eq_refl _) _ _).
  - vm_compute. lia.
  - right; left; reflexivity.
Defined.

(** ** C6: tag filters *)

Lemma contains_colon_cons (a : ascii) (k : string) :
  contains ":" (String a k) = false ->
  Ascii.eqb a ":" = false /\ contains ":" k = false.
Proof.
  cbn [contains startswith]. rewrite Ascii.eqb_sym.
  destruct (Ascii.eqb a ":"); cbn [andb orb]; [discriminate | auto].
Qed.

Lemma splitn_one_cut (k vf : string) :
  contains ":" k = false ->
  splitn ":" 1 (k ++ ":" ++ vf) = [k; vf].
Proof.
  induction k as [|a k IH]; intros H.
  - destruct vf; reflexivity.
  - apply contains_colon_cons in H. destruct H as [Ha Hk].
    change (String a k ++ ":" ++ vf)%string with (String a (k ++ ":" ++ vf)).
    cbn [splitn]. rewrite Ha, (IH Hk). reflexivity.
Qed.

Lemma tag_matches_spec (tag_key tag_value : string) (tag : res_tag) :
  tag_matches tag_key (startswith "~" tag_value)
    (if startswith "~" tag_value then
       match tag_value with
       | String _ tl => tl
       | EmptyString => EmptyString
       end
     else tag_value)
    tag
  = String.eqb (lower (get_or_empty (tag_Key tag))) (lower tag_key)
    && value_filter_holds tag_value (get_or_empty (tag_Value tag)).
Proof.
  unfold tag_matches, value_filter_holds.
  destruct (String.eqb (lower (get_or_empty (tag_Key tag))) (lower tag_key));
    [|reflexivity].
  destruct (startswith "~" tag_value); cbn [negb andb orb].
  - now rewrite orb_false_r.
  - reflexivity.
Qed.

Lemma tag_filter_rule_eq (tag_key tag_value_filter : string)
  (rule_list : list rule) (res_tags : list res_tag) :
  contains ":" tag_key = false ->
  tag_filter_rule ("tag:" ++ tag_key ++ ":" ++ tag_value_filter)
                  rule_list res_tags =
  flat_map
    (fun tag =>
       if String.eqb (lower (get_or_empty (tag_Key tag))) (lower tag_key)
          && value_filter_holds tag_value_filter (get_or_empty (tag_Value tag))
       then map kv_of rule_list else [])
    res_tags.
Proof.
  intros Hk. unfold tag_filter_rule.
  change (startswith "tag:" ("tag:" ++ tag_key ++ ":" ++ tag_value_filter))
    with true.
  change (splitn ":" 2 ("tag:" ++ tag_key ++ ":" ++ tag_value_filter))
    with ("tag" :: splitn ":" 1 (tag_key ++ ":" ++ tag_value_filter)).
  rewrite (splitn_one_cut tag_key tag_value_filter Hk). cbv beta iota.
  apply flat_map_ext. intros tag. now rewrite tag_matches_spec.
Qed.

(** The tag-filter step over the whole rule table. *)
Lemma tag_filter_tags_In (tag_rules : tag_map) (res_tags : list res_tag)
  (kv : tag_kv) :
  In kv (tag_filter_tags tag_rules res_tags) <->
  exists rule_key rule_list p0 tk tv tag r,
    In (rule_key, rule_list) tag_rules
    /\ startswith "tag:" rule_key = true
    /\ splitn ":" 2 rule_key = [p0; tk; tv]
    /\ In tag res_tags
    /\ String.eqb (lower (get_or_empty (tag_Key tag))) (lower tk) = true
    /\ value_filter_holds tv (get_or_empty (tag_Value tag)) = true
    /\ In r rule_list /\ kv = kv_of r.
Proof.
  unfold tag_filter_tags. rewrite in_flat_map. split.
  - intros [[rule_key rule_list] [Hin H]]. unfold tag_filter_rule in H.
    destruct (startswith "tag:" rule_key) eqn:Es; [|destruct H].
    destruct (splitn ":" 2 rule_key) as [|p0 [|tk [|tv [|p3 ps]]]] eqn:Ep;
      try (destruct H).
    apply in_flat_map in H. destruct H as [tag [Htag H]].
    rewrite tag_matches_spec in H.
    destruct (String.eqb (lower (get_or_empty (tag_Key tag))) (lower tk)) eqn:Ek;
      [|destruct H].
    destruct (value_filter_holds tv (get_or_empty (tag_Value tag))) eqn:Ev;
      [|destruct H].
    cbn [andb] in H. apply in_map_iff in H. destruct H as [r [Hkv Hr]].
    exists rule_key, rule_list, p0, tk, tv, tag, r. repeat split; auto.
  - intros [rule_key [rule_list [p0 [tk [tv [tag [r
             [Hin [Es [Ep [Htag [Ek [Ev [Hr ->]]]]]]]]]]]]]].
    exists (rule_key, rule_list). split; [exact Hin|].
    unfold tag_filter_rule. rewrite Es, Ep.
    apply in_flat_map. exists tag. split; [exact Htag|].
    rewrite tag_matches_spec, Ek, Ev. cbn [andb].
    apply in_map_iff. exists r. auto.
Qed.

(** In a run that completes, every tag the three steps give a processed
    resource has its row in the plan. *)
Lemma matched_tag_is_planned set_iter tag_rules region_filter resources res
  arn service rg (k v : option string) :
  In res resources ->
  snd (write_plan set_iter tag_rules region_filter resources) = None ->
  Arn res = Some arn -> Service res = Some service ->
  nonempty arn = true -> nonempty service = true ->
  nth_error (split ":" arn) 3 = Some rg ->
  (rg = EmptyString \/ rg = region_filter) ->
  In (k, v) (matched_tags set_iter tag_rules service
               (get_or_empty (ResourceType res)) arn (Tags res)) ->
  In (arn, k, v)
     (out (fst (write_plan set_iter tag_rules region_filter resources))).
Proof.
  intros Hin Hdone Ha Hs Hna Hns Hn Hrg Hkv.
  apply write_plan_In.
  destruct (write_plan_spec set_iter tag_rules region_filter resources)
    as [_ He].
  rewrite Hdone in He.
  destruct (forallb (fun x => negb (body_raises x)) resources) eqn:Eall;
    [|discriminate].
  exists res. split; [rewrite (run_prefix_all resources Eall); exact Hin|].
  destruct (body_rows_proceed set_iter tag_rules region_filter res arn
              service rg Ha Hs Hna Hns Hn Hrg) as [_ ->].
  destruct (matched_tags set_iter tag_rules service
              (get_or_empty (ResourceType res)) arn (Tags res)) as [|t ts];
    [destruct Hkv|].
  apply in_map_iff. exists (k, v). split; [reflexivity|].
  apply in_or_app. now left.
Qed.

(** C6. For a rule key [tag:<tag_key>:<filter>] (the key that
    [split(":", 2)] parses so) the tag-filter step emits the rules of the
    key once for every tag of the resource whose key equals [tag_key]
    without regard to case and whose value satisfies the filter (containment
    of the rest of the filter when it begins with a tilde, equality
    otherwise, both without regard to case), and nothing for any other tag.
    Over the whole rule table the step emits a tag exactly when it is the
    tag of a rule of such a key and some tag of the resource satisfies the
    key; an entry of the table that is satisfied has its rules among the
    tags of the step and, in a run that completes, their rows in the plan
    of a processed resource. *)
Theorem tag_filter_rule_semantics :
  forall tag_rules tag_key tag_value_filter rule_list,
    contains ":" tag_key = false ->
    (forall res_tags,
       tag_filter_rule ("tag:" ++ tag_key ++ ":" ++ tag_value_filter)
                       rule_list res_tags =
       flat_map
         (fun tag =>
            if String.eqb (lower (get_or_empty (tag_Key tag))) (lower tag_key)
               && value_filter_holds tag_value_filter
                    (get_or_empty (tag_Value tag))
            then map kv_of rule_list else [])
         res_tags)
    /\ (forall res_tags kv,
          In kv (tag_filter_tags tag_rules res_tags) <->
          exists rule_key rules p0 tk tv tag r,
            In (rule_key, rules) tag_rules
            /\ startswith "tag:" rule_key = true
            /\ splitn ":" 2 rule_key = [p0; tk; tv]
            /\ In tag res_tags
            /\ String.eqb (lower (get_or_empty (tag_Key tag))) (lower tk) = true
            /\ value_filter_holds tv (get_or_empty (tag_Value tag)) = true
            /\ In r rules /\ kv = kv_of r)
    /\ (In (("tag:" ++ tag_key ++ ":" ++ tag_value_filter)%string, rule_list)
           tag_rules ->
        forall tag r,
          String.eqb (lower (get_or_empty (tag_Key tag))) (lower tag_key) = true ->
          value_filter_holds tag_value_filter (get_or_empty (tag_Value tag))
          = true ->
          In r rule_list ->
          (forall res_tags,
             In tag res_tags ->
             In (kv_of r) (tag_filter_tags tag_rules res_tags))
          /\ (forall set_iter region_filter resources res arn service rg,
                In res resources ->
                snd (write_plan set_iter tag_rules region_filter resources)
                = None ->
                Arn res = Some arn -> Service res = Some service ->
                nonempty arn = true -> nonempty service = true ->
                nth_error (split ":" arn) 3 = Some rg ->
                (rg = EmptyString \/ rg = region_filter) ->
                In tag (Tags res) ->
                In (arn, Key r, Value r)
                   (out (fst (write_plan set_iter tag_rules region_filter
                                resources))))).
Proof.
  intros tag_rules tag_key vf rule_list Hk.
  split; [intros res_tags; now apply tag_filter_rule_eq|].
  split; [intros res_tags kv; apply tag_filter_tags_In|].
  intros Hentry tag r Ek Ev Hr.
  assert (Hstep : forall res_tags,
            In tag res_tags ->
            In (kv_of r) (tag_filter_tags tag_rules res_tags)).
  { intros res_tags Htag. unfold tag_filter_tags. apply in_flat_map.
    exists (("tag:" ++ tag_key ++ ":" ++ vf)%string, rule_list).
    split; [exact Hentry|].
    rewrite (tag_filter_rule_eq tag_key vf rule_list res_tags Hk).
    apply in_flat_map. exists tag. split; [exact Htag|].
    rewrite Ek, Ev. cbn [andb]. apply in_map_iff. exists r. auto. }
  split; [exact Hstep|].
  intros set_iter region_filter resources res arn service rg
         Hin Hdone Ha Hs Hna Hns Hn Hrg Htag.
  apply (matched_tag_is_planned set_iter tag_rules region_filter resources res
           arn service rg (Key r) (Value r) Hin Hdone Ha Hs Hna Hns Hn Hrg).
  unfold matched_tags. apply in_or_app. right. apply in_or_app. right.
  apply (Hstep (Tags res) Htag).
Qed.

Lemma tag_filter_rule_semantics_witness :
  tag_filter_rule "tag:environment:~pro"
    [mkRule (Some "Tier") (Some "Production") false]
    [mkTag (Some "Name") (Some "pro"); mkTag (Some "Environment") (Some "devPROD");
     mkTag (Some "environment") (Some "test")]
  = [(Some "Tier", Some "Production")]
  /\ In ("arn:aws:ec2:us-west-2:111122223333:instance/i-0abc",
         Some "Tier", Some "Production")
        (out (fst (write_plan insertion_order tag_filter_rules "us-west-2"
                     [named_instance "web-01"]))).
Proof.
  destruct (tag_filter_rule_semantics tag_filter_rules "environment" "~pro"
              [mkRule (Some "Tier") (Some "Production") false] eq_refl)
    as [Heq [_ Hplan]].
  split.
  - etransitivity; [exact (Heq _) | reflexivity].
  - destruct (Hplan (or_introl eq_refl)
                (mkTag (Some "Environment") (Some "devPROD"))
                (mkRule (Some "Tier") (Some "Production") false)
                eq_refl eq_refl (or_introl eq_refl)) as [_ Hrow].
    apply (Hrow insertion_order "us-west-2" [named_instance "web-01"]
             (named_instance "web-01")
             "arn:aws:ec2:us-west-2:111122223333:instance/i-0abc" "ec2"
             "us-west-2"); try reflexivity.
    + left; reflexivity.
    + right; reflexivity.
    + right; left; reflexivity.
Defined.

(** ** C4: partial name rules *)

(** C4. What the partial-name step does: for a resource with a non-empty
    name it emits the tag of every rule flagged partial whose key (lower-cased
    when the rules were loaded) is contained in the name as it is written.
    The name is not lower-cased: the rule [~web] is emitted for the names
    web-01 and new-web and not for the name WEB, although web is contained
    in WEB once both are lower-cased, and a resource named WEB gets no plan
    row from that rule. *)
Theorem partial_name_match_is_case_sensitive :
  (forall tag_rules name kv,
     nonempty name = true ->
     (In kv (partial_tags tag_rules (Some name)) <->
      exists rule_key rule_list r,
        In (rule_key, rule_list) tag_rules /\ In r rule_list
        /\ Partial r = true /\ contains rule_key name = true /\ kv = kv_of r))
  /\ loaded_rules [["~web"; "Application"; "CRM"]]
     = [("web", [mkRule (Some "Application") (Some "CRM") true])]
  /\ partial_tags (loaded_rules [["~web"; "Application"; "CRM"]]) (Some "web-01")
     = [(Some "Application", Some "CRM")]
  /\ partial_tags (loaded_rules [["~web"; "Application"; "CRM"]]) (Some "new-web")
     = [(Some "Application", Some "CRM")]
  /\ partial_tags (loaded_rules [["~web"; "Application"; "CRM"]]) (Some "WEB")
     = []
  /\ contains (lower "web") (lower "WEB") = true
  /\ out (fst (write_plan insertion_order
                 (loaded_rules [["~web"; "Application"; "CRM"]])
                 "us-west-2" [named_instance "WEB"]))
     = [].
Proof.
  split; [|repeat split; reflexivity].
  intros tag_rules name kv Hn. unfold partial_tags. rewrite Hn.
  rewrite in_flat_map. split.
  - intros [[rule_key rule_list] [Hin H]].
    apply in_flat_map in H. destruct H as [r [Hr H]].
    destruct (Partial r) eqn:Ep; [|destruct H].
    destruct (contains rule_key name) eqn:Ec; [|destruct H].
    destruct H as [<-|[]].
    exists rule_key, rule_list, r. auto.
  - intros [rule_key [rule_list [r [Hin [Hr [Ep [Ec ->]]]]]]].
    exists (rule_key, rule_list). split; [exact Hin|].
    apply in_flat_map. exists r. split; [exact Hr|].
    rewrite Ep, Ec. left; reflexivity.
Qed.

(** ** C5: the match keys *)

Lemma set_add_In (x y : string) (keys : list string) :
  In x (set_add y keys) <-> x = y \/ In x keys.
Proof.
  unfold set_add. destruct (existsb (String.eqb y) keys) eqn:E.
  - split; [auto|]. intros [->|H]; [|exact H].
    apply existsb_exists in E. destruct E as [z [Hz Heq]].
    apply String.eqb_eq in Heq. now subst.
  - rewrite in_app_iff. simpl. split.
    + intros [H|[<-|[]]]; auto.
    + intros [->|H]; auto.
Qed.

(** C5. What [get_match_keys] returns: the identifier as it is written (when
    non-empty), the name as it is written (when present and non-empty), the
    type key (the lower-cased resource type when it holds a colon, otherwise
    lower-cased service, colon, lower-cased type; absent when the type is
    empty) and the lower-cased service.  The identifier and the name keep
    their case: for a function named Web the set holds an identifier and a
    name that are not lower-case, so the exact-name rule [Web], stored under
    the key web, gives the resource no plan row. *)
Theorem get_match_keys_keeps_case :
  (forall service subtype arn name x,
     In x (get_match_keys service subtype arn name) <->
     (x = arn /\ nonempty arn = true)
     \/ (name = Some x /\ nonempty x = true)
     \/ (nonempty subtype = true
         /\ x = if contains ":" (lower subtype) then lower subtype
                else (lower service ++ ":" ++ lower subtype)%string)
     \/ x = lower service)
  /\ get_match_keys "Lambda" "Function"
       "arn:aws:lambda:us-west-2:111122223333:function:MyFunc" (Some "Web")
     = ["arn:aws:lambda:us-west-2:111122223333:function:MyFunc"; "Web";
        "lambda:function"; "lambda"]
  /\ lower "arn:aws:lambda:us-west-2:111122223333:function:MyFunc"
     <> "arn:aws:lambda:us-west-2:111122223333:function:MyFunc"
  /\ lower "Web" <> "Web"
  /\ loaded_rules [["Web"; "Application"; "CRM"]]
     = [("web", [mkRule (Some "Application") (Some "CRM") false])]
  /\ out (fst (write_plan insertion_order
                 (loaded_rules [["Web"; "Application"; "CRM"]])
                 "us-west-2" [named_instance "Web"]))
     = [].
Proof.
  split; [|repeat split; try reflexivity; discriminate].
  intros service subtype arn name x. unfold get_match_keys.
  rewrite set_add_In.
  destruct (nonempty subtype) eqn:Es.
  - destruct (contains ":" (lower subtype)) eqn:Ec; rewrite set_add_In;
      (destruct name as [n|]; [destruct (nonempty n) eqn:En; [rewrite set_add_In|]|]);
      (destruct (nonempty arn) eqn:Ea; [rewrite set_add_In|]); simpl;
      intuition (subst; auto; try congruence);
      match goal with
      | H : Some _ = Some _ |- _ => inversion H; subst; auto; congruence
      end.
  - (destruct name as [n|]; [destruct (nonempty n) eqn:En; [rewrite set_add_In|]|]);
      (destruct (nonempty arn) eqn:Ea; [rewrite set_add_In|]); simpl;
      intuition (subst; auto; try congruence);
      match goal with
      | H : Some _ = Some _ |- _ => inversion H; subst; auto; congruence
      end.
Qed.

(** ** C7: the order of the rows *)

Lemma set_order_insertion : set_order insertion_order.
Proof. intros keys. apply Permutation_refl. Qed.

Lemma set_order_reverse : set_order reverse_order.
Proof. intros keys. apply Permutation_sym, Permutation_rev. Qed.

Lemma matched_tags_perm it1 it2 tag_rules service subtype arn res_tags :
  set_order it1 -> set_order it2 ->
  Permutation (matched_tags it1 tag_rules service subtype arn res_tags)
              (matched_tags it2 tag_rules service subtype arn res_tags).
Proof.
  intros H1 H2. unfold matched_tags, exact_tags.
  apply Permutation_app_tail, Permutation_flat_map.
  eapply Permutation_trans; [apply H1 | apply Permutation_sym, H2].
Qed.

Lemma body_rows_perm it1 it2 tag_rules region_filter res :
  set_order it1 -> set_order it2 ->
  Permutation (body_rows it1 tag_rules region_filter res)
              (body_rows it2 tag_rules region_filter res).
Proof.
  intros H1 H2. unfold body_rows.
  destruct (Arn res) as [arn|]; [|constructor].
  destruct (Service res) as [service|]; [|constructor].
  destruct (negb (nonempty arn) || negb (nonempty service)); [constructor|].
  destruct (nth_error (split ":" arn) 3) as [rg|]; [|constructor].
  destruct (nonempty rg && negb (String.eqb rg region_filter)); [constructor|].
  pose proof (matched_tags_perm it1 it2 tag_rules service
                (get_or_empty (ResourceType res)) arn (Tags res) H1 H2) as Hp.
  destruct (matched_tags it1 _ _ _ _ _) as [|t1 ts1];
    destruct (matched_tags it2 _ _ _ _ _) as [|t2 ts2].
  - constructor.
  - apply Permutation_nil in Hp. discriminate.
  - apply Permutation_sym, Permutation_nil in Hp. discriminate.
  - apply Permutation_map, Permutation_app_tail, Hp.
Qed.

(** C7, as the script behaves. Two runs over the same rule table and the
    same resource list that may visit the match-key set in different orders
    end alike (both complete or both raise), and their plans hold the same
    rows, one a rearrangement of the other; the rows of a run are, in the
    order of the resources and within a resource in the order the tags were
    emitted, the first occurrences of the rows offered. *)
Theorem write_plan_rows_up_to_set_order :
  forall it1 it2 tag_rules region_filter resources,
    set_order it1 -> set_order it2 ->
    snd (write_plan it1 tag_rules region_filter resources)
    = snd (write_plan it2 tag_rules region_filter resources)
    /\ Permutation
         (out (fst (write_plan it1 tag_rules region_filter resources)))
         (out (fst (write_plan it2 tag_rules region_filter resources)))
    /\ out (fst (write_plan it1 tag_rules region_filter resources))
       = first_occurrences []
           (flat_map (body_rows it1 tag_rules region_filter)
                     (run_prefix resources)).
Proof.
  intros it1 it2 tag_rules region_filter resources H1 H2.
  destruct (write_plan_spec it1 tag_rules region_filter resources) as [Ho1 He1].
  destruct (write_plan_spec it2 tag_rules region_filter resources) as [Ho2 He2].
  split; [congruence|]. split; [|exact Ho1].
  apply NoDup_Permutation.
  - rewrite Ho1. apply first_occurrences_NoDup.
  - rewrite Ho2. apply first_occurrences_NoDup.
  - intros r. rewrite !write_plan_In.
    split; intros [res [Hin Hr]]; exists res; (split; [exact Hin|]).
    + exact (Permutation_in r
               (body_rows_perm it1 it2 tag_rules region_filter res H1 H2) Hr).
    + exact (Permutation_in r
               (body_rows_perm it2 it1 tag_rules region_filter res H2 H1) Hr).
Qed.

Lemma write_plan_rows_up_to_set_order_witness :
  Permutation
    (out (fst (write_plan insertion_order service_and_type_rules "us-west-2"
                 [named_instance "web-01"])))
    (out (fst (write_plan reverse_order service_and_type_rules "us-west-2"
                 [named_instance "web-01"]))).
Proof.
  exact (proj1 (proj2 (write_plan_rows_up_to_set_order insertion_order
                         reverse_order service_and_type_rules "us-west-2"
                         [named_instance "web-01"]
                         (fun keys => Permutation_refl keys)
                         (fun keys => Permutation_sym (Permutation_rev keys))))).
Defined.

(** C7, as stated, fails: with the match-key set visited in two different
    orders the same input gives the rows of one resource in different
    orders. *)
Lemma write_plan_row_order_depends_on_set_order :
  set_order insertion_order /\ set_order reverse_order
  /\ out (fst (write_plan insertion_order service_and_type_rules "us-west-2"
                 [named_instance "web-01"]))
     = [("arn:aws:ec2:us-west-2:111122223333:instance/i-0abc", Some "Backup", Some "Daily");
        ("arn:aws:ec2:us-west-2:111122223333:instance/i-0abc", Some "Schedule", Some "24x7");
        ("arn:aws:ec2:us-west-2:111122223333:instance/i-0abc", Some "Owner", Some "Team")]
  /\ out (fst (write_plan reverse_order service_and_type_rules "us-west-2"
                 [named_instance "web-01"]))
     = [("arn:aws:ec2:us-west-2:111122223333:instance/i-0abc", Some "Schedule", Some "24x7");
        ("arn:aws:ec2:us-west-2:111122223333:instance/i-0abc", Some "Backup", Some "Daily");
        ("arn:aws:ec2:us-west-2:111122223333:instance/i-0abc", Some "Owner", Some "Team")]
  /\ out (fst (write_plan insertion_order service_and_type_rules "us-west-2"
                 [named_instance "web-01"]))
     <> out (fst (write_plan reverse_order service_and_type_rules "us-west-2"
                    [named_instance "web-01"])).
Proof.
  split; [apply set_order_insertion|]. split; [apply set_order_reverse|].
  split; [reflexivity|]. split; [reflexivity|].
  vm_compute. discriminate.
Qed.

(** ** C8: rule files that cannot be loaded *)

Lemma row_get_set (d : csv_row) (c c' : string) (v : option string) :
  row_get (row_set d c v) c' =
  if String.eqb c c' then Ok v else row_get d c'.
Proof.
  induction d as [|[c0 x] rest IH]; simpl.
  - destruct (String.eqb c c'); reflexivity.
  - destruct (String.eqb c0 c) eqn:E0; simpl.
    + apply String.eqb_eq in E0. subst c0.
      destruct (String.eqb c c'); reflexivity.
    + rewrite IH. destruct (String.eqb c0 c') eqn:E1; [|reflexivity].
      apply String.eqb_eq in E1. subst c0. now rewrite String.eqb_sym, E0.
Qed.

Lemma zip_fold_get (l : list (string * string)) (col : string) :
  forall d,
    (~ In col (map fst l) ->
     row_get (fold_left (fun d cf => row_set d (fst cf) (Some (snd cf))) l d) col
     = row_get d col)
    /\ (In col (map fst l) ->
        exists v,
          row_get (fold_left (fun d cf => row_set d (fst cf) (Some (snd cf))) l d)
                  col
          = Ok (Some v)).
Proof.
  induction l as [|[c f] rest IH]; intros d; simpl.
  - split; [reflexivity | intros []].
  - destruct (IH (row_set d c (Some f))) as [IHn IHi]. split.
    + intros Hn. rewrite IHn by tauto. rewrite row_get_set.
      destruct (String.eqb c col) eqn:E; [|reflexivity].
      apply String.eqb_eq in E. tauto.
    + intros Hin.
      destruct (in_dec string_dec col (map fst rest)) as [Hr|Hr];
        [now apply IHi|].
      rewrite (IHn Hr), row_get_set.
      destruct Hin as [->|Hin]; [|contradiction].
      rewrite String.eqb_refl. eauto.
Qed.


Lemma combine_columns (header fields : list string) :
  map fst (combine header fields) = firstn (length fields) header.
Proof.
  revert fields. induction header as [|c header IH]; intros [|f fields];
    simpl; try reflexivity.
  now rewrite IH.
Qed.








(** * Further properties of the script *)

(** ** load_tag_rules: the rule table *)

Lemma lower_char_idem (c : ascii) : lower_char (lower_char c) = lower_char c.
Proof.
  destruct c as [[] [] [] [] [] [] [] []]; vm_compute; reflexivity.
Qed.

Lemma lower_idem (s : string) : lower (lower s) = lower s.
Proof.
  induction s as [|c s IH]; simpl; [reflexivity|].
  now rewrite lower_char_idem, IH.
Qed.

Lemma load_rows_step (r : csv_row) (rest : list csv_row) (tm : tag_map)
  (lg : list log_entry) :
  load_rows (r :: rest) tm lg =
  match rule_of_record r with
  | Raise e => Raise e
  | Ok None => load_rows rest tm (lg ++ [LogSkipRule r])
  | Ok (Some (k, rl)) => load_rows rest (dict_append tm k rl) (lg ++ [LogTagRule r])
  end.
Proof.
  cbn [load_rows]. unfold rule_of_record, bind.
  destruct (row_get r "Filter") as [[f|]|e]; [|reflexivity|reflexivity].
  destruct (negb (nonempty (strip f)) || startswith "#" (strip f));
    [reflexivity|].
  destruct (row_get r "TagKey") as [k|e]; [|reflexivity].
  destruct (row_get r "TagValue") as [v|e]; reflexivity.
Qed.

Lemma rule_of_record_key_lower (r : csv_row) (k : string) (rl : rule) :
  rule_of_record r = Ok (Some (k, rl)) -> lower k = k.
Proof.
  unfold rule_of_record, bind.
  destruct (row_get r "Filter") as [[f|]|e]; [|discriminate|discriminate].
  destruct (negb (nonempty (strip f)) || startswith "#" (strip f));
    [discriminate|].
  destruct (row_get r "TagKey") as [tk|e]; [|discriminate].
  destruct (row_get r "TagValue") as [tv|e]; [|discriminate].
  intros H. inversion H; subst. apply lower_idem.
Qed.

Lemma rule_of_record_accepted (r : csv_row) :
  match rule_of_record r with
  | Ok (Some _) => accepted r = true
  | Ok None => accepted r = false
  | Raise _ => True
  end.
Proof.
  unfold rule_of_record, accepted, bind.
  destruct (row_get r "Filter") as [[f|]|e]; [|exact I|exact I].
  destruct (nonempty (strip f)); destruct (startswith "#" (strip f));
    cbn [negb orb andb]; try reflexivity.
  destruct (row_get r "TagKey") as [tk|e]; [|exact I].
  destruct (row_get r "TagValue") as [tv|e]; [reflexivity | exact I].
Qed.

Lemma dict_get_append (d : tag_map) (k key : string) (r : rule) :
  dict_get (dict_append d k r) key =
  if String.eqb k key then dict_get d key ++ [r] else dict_get d key.
Proof.
  induction d as [|[k' v] rest IH]; simpl.
  - destruct (String.eqb k key); reflexivity.
  - destruct (String.eqb k' k) eqn:E1; simpl.
    + apply String.eqb_eq in E1. subst k'.
      destruct (String.eqb k key); reflexivity.
    + rewrite IH. destruct (String.eqb k' key) eqn:E2; [|reflexivity].
      apply String.eqb_eq in E2. subst k'. now rewrite String.eqb_sym, E1.
Qed.

Lemma dict_append_keys (d : tag_map) (k : string) (r : rule) :
  map fst (dict_append d k r) =
  if existsb (String.eqb k) (map fst d) then map fst d else map fst d ++ [k].
Proof.
  induction d as [|[k' v] rest IH]; simpl; [reflexivity|].
  rewrite (String.eqb_sym k k').
  destruct (String.eqb k' k); simpl; [reflexivity|].
  rewrite IH. destruct (existsb (String.eqb k) (map fst rest)); reflexivity.
Qed.

Lemma dict_append_In (d : tag_map) (k k0 : string) (r : rule) (rl : list rule) :
  In (k, rl) (dict_append d k0 r) ->
  (k = k0 /\ In r rl) \/ In (k, rl) d.
Proof.
  induction d as [|[k' v] rest IH]; simpl.
  - intros [H|[]]. inversion H; subst. left. split; [reflexivity | now left].
  - destruct (String.eqb k' k0) eqn:E; simpl.
    + intros [H|H]; [|auto]. inversion H; subst.
      apply String.eqb_eq in E. left. split; [exact E|].
      apply in_or_app. right. now left.
    + intros [H|H]; [auto|]. destruct (IH H); auto.
Qed.

Lemma dict_append_count (d : tag_map) (k : string) (r : rule) :
  length (flat_map snd (dict_append d k r)) = S (length (flat_map snd d)).
Proof.
  induction d as [|[k' v] rest IH]; simpl; [reflexivity|].
  destruct (String.eqb k' k); simpl.
  - rewrite !length_app. simpl. lia.
  - rewrite !length_app, IH. lia.
Qed.

(** What a successful run of the loop of [load_tag_rules] keeps and adds. *)
Lemma load_rows_Ok (rows : list csv_row) :
  forall tm lg tm' lg',
    load_rows rows tm lg = Ok (tm', lg') ->
    (forall key, dict_get tm' key = dict_get tm key ++ rules_under key rows)
    /\ ((forall k rl, In (k, rl) tm -> lower k = k /\ rl <> []) ->
        forall k rl, In (k, rl) tm' -> lower k = k /\ rl <> [])
    /\ (NoDup (map fst tm) -> NoDup (map fst tm'))
    /\ length (flat_map snd tm') =
       length (flat_map snd tm) + length (filter accepted rows)
    /\ length lg' = length lg + length rows.
Proof.
  induction rows as [|r rest IH]; intros tm lg tm' lg' H.
  - simpl in H. inversion H; subst. split.
    + intros key. unfold rules_under. simpl. now rewrite app_nil_r.
    + simpl. split; [auto|]. split; [auto|]. split; lia.
  - rewrite load_rows_step in H.
    pose proof (rule_of_record_accepted r) as Hacc.
    pose proof (rule_of_record_key_lower r) as Hlow.
    unfold rules_under. cbn [flat_map filter length].
    destruct (rule_of_record r) as [[[k rl]|]|e]; [| |discriminate].
    + destruct (IH _ _ _ _ H) as [Hget [Hkeys [Hnd [Hcnt Hlog]]]].
      rewrite Hacc. split; [|split; [|split; [|split]]].
      * intros key. rewrite Hget, dict_get_append.
        unfold rules_under.
        destruct (String.eqb k key); [now rewrite <- app_assoc | reflexivity].
      * intros Htm. apply Hkeys. intros k0 rl0 Hin.
        apply dict_append_In in Hin. destruct Hin as [[-> Hr]|Hin].
        -- split; [now apply (Hlow k rl) | intros ->; destruct Hr].
        -- now apply Htm.
      * intros Hn. apply Hnd. rewrite dict_append_keys.
        destruct (existsb (String.eqb k) (map fst tm)) eqn:E; [exact Hn|].
        apply NoDup_app; [exact Hn | repeat constructor; intros [] |].
        intros x Hx [Hk|[]]. subst x.
        assert (existsb (String.eqb k) (map fst tm) = true); [|congruence].
        apply existsb_exists. exists k. split; [exact Hx | apply String.eqb_refl].
      * rewrite Hcnt, dict_append_count. simpl. lia.
      * rewrite Hlog, length_app. simpl. lia.
    + destruct (IH _ _ _ _ H) as [Hget [Hkeys [Hnd [Hcnt Hlog]]]].
      rewrite Hacc. split; [|split; [|split; [|split]]]; auto.
      rewrite Hlog, length_app. simpl. lia.
Qed.

(** X1. When [load_tag_rules] succeeds, the rules the table holds under a
    key are exactly the rules of the accepted records whose filter, with
    the tilde removed and lower-cased, is that key, in file order. *)
Theorem loaded_rules_lookup :
  forall path reader tm lg,
    load_tag_rules path reader = Ok (tm, lg) ->
    forall key, dict_get tm key = rules_under key reader.
Proof.
  intros path reader tm lg H key. unfold load_tag_rules in H.
  destruct (negb (endswith ".csv" path)); [discriminate|].
  destruct (load_rows_Ok reader [] [] tm lg H) as [Hget _].
  exact (Hget key).
Qed.

Lemma loaded_rules_lookup_witness :
  dict_get (loaded_rules sample_records) "ec2:instance"
  = [mkRule (Some "Backup") (Some "Daily") false; mkRule (Some "Owner") (Some "Ops") false].
Proof.
  etransitivity.
  - refine (loaded_rules_lookup "tags.csv"
              (DictReader rules_header sample_records)
              (loaded_rules sample_records) _ _ "ec2:instance").
    reflexivity.
  - reflexivity.
Defined.

(** X2. When [load_tag_rules] succeeds, the keys of the table are pairwise
    distinct and lower-case, and no key has an empty rule list. *)
Theorem loaded_keys_normalized :
  forall path reader tm lg,
    load_tag_rules path reader = Ok (tm, lg) ->
    NoDup (map fst tm)
    /\ forall k rl, In (k, rl) tm -> lower k = k /\ rl <> [].
Proof.
  intros path reader tm lg H. unfold load_tag_rules in H.
  destruct (negb (endswith ".csv" path)); [discriminate|].
  destruct (load_rows_Ok reader [] [] tm lg H) as [_ [Hkeys [Hnd _]]].
  split.
  - apply Hnd. constructor.
  - apply Hkeys. intros k rl [].
Qed.

Lemma loaded_keys_normalized_witness :
  NoDup (map fst (loaded_rules sample_records)).
Proof.
  refine (proj1 (loaded_keys_normalized "tags.csv"
                   (DictReader rules_header sample_records)
                   (loaded_rules sample_records) _ _)).
  reflexivity.
Defined.

(** X3. When [load_tag_rules] succeeds, the table holds one rule for every
    accepted record (neither blank nor a comment) and the log one entry for
    every record. *)
Theorem loaded_rule_and_log_counts :
  forall path reader tm lg,
    load_tag_rules path reader = Ok (tm, lg) ->
    length (flat_map snd tm) = length (filter accepted reader)
    /\ length lg = length reader.
Proof.
  intros path reader tm lg H. unfold load_tag_rules in H.
  destruct (negb (endswith ".csv" path)); [discriminate|].
  destruct (load_rows_Ok reader [] [] tm lg H) as [_ [_ [_ [Hcnt Hlog]]]].
  split; [exact Hcnt | exact Hlog].
Qed.

Lemma loaded_rule_and_log_counts_witness :
  length (flat_map snd (loaded_rules sample_records)) = 4.
Proof.
  etransitivity.
  - refine (proj1 (loaded_rule_and_log_counts "tags.csv"
                     (DictReader rules_header sample_records)
                     (loaded_rules sample_records) _ _)).
    reflexivity.
  - reflexivity.
Defined.

Lemma load_rows_total (rows : list csv_row) :
  (forall r, In r rows ->
     (exists f, row_get r "Filter" = Ok (Some f))
     /\ (exists k, row_get r "TagKey" = Ok k)
     /\ (exists v, row_get r "TagValue" = Ok v)) ->
  forall tm lg, exists tm' lg', load_rows rows tm lg = Ok (tm', lg').
Proof.
  induction rows as [|r rest IH]; intros Hcols tm lg.
  - exists tm, lg. reflexivity.
  - rewrite load_rows_step.
    assert (Hrec : exists o, rule_of_record r = Ok o).
    { unfold rule_of_record, bind.
      destruct (Hcols r (or_introl eq_refl)) as [[f ->] [[k ->] [v ->]]].
      destruct (negb (nonempty (strip f)) || startswith "#" (strip f)); eauto. }
    destruct Hrec as [o ->].
    assert (Hrest : forall r', In r' rest ->
              (exists f, row_get r' "Filter" = Ok (Some f))
              /\ (exists k, row_get r' "TagKey" = Ok k)
              /\ (exists v, row_get r' "TagValue" = Ok v))
      by (intros r' Hr'; apply Hcols; now right).
    destruct o as [[k rl]|]; apply IH; exact Hrest.
Qed.

Lemma dict_row_complete (header fields : list string) (col : string) :
  length header <= length fields -> In col header ->
  exists v, row_get (dict_row header fields) col = Ok (Some v).
Proof.
  intros Hlen Hin. unfold dict_row.
  rewrite (skipn_all2 header Hlen). cbn [fold_left].
  destruct (zip_fold_get (combine header fields) col []) as [_ Zi].
  apply Zi. rewrite combine_columns, (firstn_all2 header Hlen). exact Hin.
Qed.

(** X4. [load_tag_rules] fails on nothing but the file name, a missing
    column and a short record: for a name ending in .csv, a header with the
    three columns Filter, TagKey and TagValue and records that have at least
    as many fields as the header, it returns a table. *)
Theorem load_tag_rules_total_on_complete_records :
  forall path header records,
    endswith ".csv" path = true ->
    In "Filter" header -> In "TagKey" header -> In "TagValue" header ->
    (forall fields, In fields records -> length header <= length fields) ->
    exists tm lg, load_tag_rules path (DictReader header records) = Ok (tm, lg).
Proof.
  intros path header records Hext Hf Hk Hv Hlen.
  unfold load_tag_rules. rewrite Hext. cbn [negb].
  apply load_rows_total. intros r Hr.
  unfold DictReader in Hr. apply in_map_iff in Hr.
  destruct Hr as [fields [<- Hfields]]. apply filter_In in Hfields.
  destruct Hfields as [Hfields _]. specialize (Hlen fields Hfields).
  destruct (dict_row_complete header fields "Filter" Hlen Hf) as [f Ef].
  destruct (dict_row_complete header fields "TagKey" Hlen Hk) as [k Ek].
  destruct (dict_row_complete header fields "TagValue" Hlen Hv) as [v Ev].
  repeat split; eauto.
Qed.

Lemma load_tag_rules_total_on_complete_records_witness :
  exists tm lg,
    load_tag_rules "tags.csv"
      (DictReader rules_header [["ec2"; "Schedule"; "24x7"]; ["#"; "a"; "b"; "c"]])
    = Ok (tm, lg).
Proof.
  apply load_tag_rules_total_on_complete_records;
    try reflexivity; try (vm_compute; tauto).
  intros fields [<-|[<-|[]]]; vm_compute; lia.
Defined.

(** ** get_view_arn *)

Lemma find_view_found (views : list string) (view_name view : string) :
  find_view views view_name = Ok (Some view) ->
  In view views
  /\ exists full,
       nth_error (split ":" view) 5 = Some full
       /\ 3 <= length (split "/" full)
       /\ nth_error (split "/" full) (length (split "/" full) - 2)
          = Some view_name.
Proof.
  induction views as [|v rest IH]; cbn [find_view]; [intros H0; discriminate H0|].
  destruct (nth_error (split ":" v) 5) as [full|] eqn:En; [|intros H0; discriminate H0].
  destruct (3 <=? length (split "/" full))%nat eqn:El.
  - destruct (nth_error (split "/" full) (length (split "/" full) - 2))
      as [n|] eqn:Ep.
    + destruct (String.eqb n view_name) eqn:E.
      * intros H. inversion H; subst v. split; [now left|].
        exists full. apply String.eqb_eq in E. subst n.
        apply Nat.leb_le in El. auto.
      * intros H. destruct (IH H) as [Hin Hex]. split; [now right | exact Hex].
    + intros H. destruct (IH H) as [Hin Hex]. split; [now right | exact Hex].
  - intros H. destruct (IH H) as [Hin Hex]. split; [now right | exact Hex].
Qed.

(** X5. The view [get_view_arn] returns is one of the listed views, is a
    non-empty string (so [main] does not take it for a missing view), and
    its sixth colon-separated field has at least three parts separated by
    slashes, the one before the last being the name asked for. *)
Theorem get_view_arn_found :
  forall pages view_name view,
    get_view_arn pages view_name = Ok (Some view) ->
    In view (concat pages)
    /\ truthy (Some view) = true
    /\ exists full,
         nth_error (split ":" view) 5 = Some full
         /\ 3 <= length (split "/" full)
         /\ nth_error (split "/" full) (length (split "/" full) - 2)
            = Some view_name.
Proof.
  intros pages view_name view H.
  destruct (find_view_found _ _ _ H) as [Hin [full [Hn Hrest]]].
  split; [exact Hin|]. split; [|exists full; auto].
  destruct view; [discriminate Hn | reflexivity].
Qed.

Lemma get_view_arn_found_witness :
  In sample_view (concat sample_pages) /\ truthy (Some sample_view) = true.
Proof.
  destruct (get_view_arn_found sample_pages "all-resources-with-tags"
              sample_view eq_refl) as [Hin [Ht _]].
  split; [exact Hin | exact Ht].
Defined.

(** X6. [get_view_arn] raises nothing when every listed view has at least
    six colon-separated fields, so that [view_parts[5]] exists: it returns
    a view or [None]. *)
Theorem get_view_arn_total_on_wellformed_views :
  forall pages view_name,
    (forall view, In view (concat pages) -> 6 <= length (split ":" view)) ->
    exists o, get_view_arn pages view_name = Ok o.
Proof.
  intros pages view_name. unfold get_view_arn.
  induction (concat pages) as [|v rest IH]; intros Hlen; cbn [find_view].
  - eauto.
  - assert (Hrest : forall view, In view rest -> 6 <= length (split ":" view))
      by (intros view Hv; apply Hlen; now right).
    destruct (nth_error (split ":" v) 5) as [full|] eqn:En.
    + destruct (3 <=? length (split "/" full))%nat; [|now apply IH].
      destruct (nth_error (split "/" full) (length (split "/" full) - 2))
        as [n|]; [|now apply IH].
      destruct (String.eqb n view_name); [eauto | now apply IH].
    + apply nth_error_None in En.
      specialize (Hlen v (or_introl eq_refl)). lia.
Qed.

Lemma get_view_arn_total_on_wellformed_views_witness :
  exists o, get_view_arn sample_pages "no-such-view" = Ok o.
Proof.
  apply get_view_arn_total_on_wellformed_views.
  intros view [<-|[<-|[]]]; vm_compute; lia.
Defined.

(** X7. When [get_view_arn] returns [None], no listed view carries the name:
    every listed view has six fields, and the part before the last of its
    sixth field, when that field has three parts, differs from the name. *)
Theorem get_view_arn_none_means_absent :
  forall pages view_name,
    get_view_arn pages view_name = Ok None ->
    forall view,
      In view (concat pages) ->
      exists full,
        nth_error (split ":" view) 5 = Some full
        /\ (3 <= length (split "/" full) ->
            nth_error (split "/" full) (length (split "/" full) - 2)
            <> Some view_name).
Proof.
  intros pages view_name. unfold get_view_arn.
  induction (concat pages) as [|v rest IH]; cbn [find_view]; [intros _ view []|].
  destruct (nth_error (split ":" v) 5) as [full|] eqn:En; [|intros H0; discriminate H0].
  destruct (3 <=? length (split "/" full))%nat eqn:El.
  - destruct (nth_error (split "/" full) (length (split "/" full) - 2))
      as [n|] eqn:Ep.
    + destruct (String.eqb n view_name) eqn:E; [intros H0; discriminate H0|].
      intros H view [<-|Hin]; [|now apply IH].
      exists full. split; [exact En|]. intros _. rewrite Ep.
      intros Heq. inversion Heq; subst n.
      rewrite String.eqb_refl in E. discriminate.
    + intros H view [<-|Hin]; [|now apply IH].
      exists full. split; [exact En|]. intros _. rewrite Ep. discriminate.
  - intros H view [<-|Hin]; [|now apply IH].
    exists full. split; [exact En|]. intros Hl.
    apply Nat.leb_gt in El. lia.
Qed.

Lemma get_view_arn_none_means_absent_witness :
  exists full,
    nth_error (split ":" sample_view) 5 = Some full
    /\ (3 <= length (split "/" full) ->
        nth_error (split "/" full) (length (split "/" full) - 2)
        <> Some "no-such-view").
Proof.
  apply (get_view_arn_none_means_absent sample_pages "no-such-view" eq_refl).
  right; left; reflexivity.
Defined.

(** ** get_tags_for_resources: batches *)

Lemma chunks_concat (n m : nat) :
  forall l : list string,
    length l <= n * m ->
    concat (map (fun j => firstn n (skipn (n * j) l)) (seq 0 m)) = l.
Proof.
  induction m as [|m IH]; intros l Hlen.
  - rewrite Nat.mul_0_r in Hlen. destruct l; [reflexivity | simpl in Hlen; lia].
  - cbn [seq map concat]. rewrite <- seq_shift, map_map.
    rewrite Nat.mul_0_r. cbn [skipn].
    rewrite (map_ext (fun j => firstn n (skipn (n * S j) l))
                     (fun j => firstn n (skipn (n * j) (skipn n l)))).
    + rewrite IH; [apply firstn_skipn|].
      rewrite length_skipn. rewrite Nat.mul_succ_r in Hlen. lia.
    + intros j. rewrite skipn_skipn, Nat.mul_succ_r. reflexivity.
Qed.

Lemma batches_concat (arn_list : list string) :
  concat (batches arn_list) = arn_list.
Proof.
  unfold batches. apply chunks_concat.
  pose proof (Nat.div_mod_eq (length arn_list + 99) 100) as Hd.
  pose proof (Nat.mod_upper_bound (length arn_list + 99) 100) as Hm.
  lia.
Qed.

(** X8. The batches [get_tags_for_resources] cuts a list of ARNs into are
    the list itself, in order, in pieces of at least one and at most one
    hundred ARNs. *)
Theorem batches_partition :
  forall arn_list,
    concat (batches arn_list) = arn_list
    /\ Forall (fun batch => 1 <= length batch <= 100) (batches arn_list).
Proof.
  intros arn_list. split; [apply batches_concat|].
  apply Forall_forall. intros batch Hin. unfold batches in Hin.
  apply in_map_iff in Hin. destruct Hin as [j [<- Hj]].
  apply in_seq in Hj.
  rewrite length_firstn, length_skipn.
  pose proof (Nat.div_mod_eq (length arn_list + 99) 100) as Hd.
  pose proof (Nat.mod_upper_bound (length arn_list + 99) 100) as Hm.
  lia.
Qed.

(** ** get_tags_for_resources: grouping and lookups *)

Lemma group_append_new (d : list (string * list string)) (k x : string) :
  grouped (group_append d k x) k x.
Proof.
  induction d as [|[k' v] rest IH]; simpl.
  - exists [x]. split; now left.
  - destruct (String.eqb k' k) eqn:E.
    + apply String.eqb_eq in E. subst k'. exists (v ++ [x]).
      split; [now left | apply in_or_app; right; now left].
    + destruct IH as [l [Hin Hx]]. exists l. split; [now right | exact Hx].
Qed.

Lemma group_append_keeps (d : list (string * list string)) (k x k0 x0 : string) :
  grouped d k0 x0 -> grouped (group_append d k x) k0 x0.
Proof.
  intros [l [Hin Hx]]. induction d as [|[k' v] rest IH]; simpl; [destruct Hin|].
  destruct Hin as [Heq|Hin].
  - inversion Heq; subst k' v. destruct (String.eqb k0 k).
    + exists (l ++ [x]). split; [now left | apply in_or_app; now left].
    + exists l. split; [now left | exact Hx].
  - destruct (String.eqb k' k).
    + exists l. split; [now right | exact Hx].
    + destruct (IH Hin) as [l' [Hin' Hx']]. exists l'. split; [now right | exact Hx'].
Qed.

Lemma arns_by_region_covers (resources : list listed_resource) :
  forall d,
    (forall k x, grouped d k x ->
       grouped (fold_left
                  (fun d res => group_append d (client_region_of res)
                                             (get_or_empty (l_Arn res)))
                  resources d) k x)
    /\ (forall res, In res resources ->
          grouped (fold_left
                     (fun d res => group_append d (client_region_of res)
                                                (get_or_empty (l_Arn res)))
                     resources d)
                  (client_region_of res) (get_or_empty (l_Arn res))).
Proof.
  induction resources as [|r rest IH]; intros d; simpl.
  - split; [auto | intros res []].
  - destruct (IH (group_append d (client_region_of r) (get_or_empty (l_Arn r))))
      as [Hkeep Hnew].
    split.
    + intros k x Hg. apply Hkeep. now apply group_append_keeps.
    + intros res [<-|Hin]; [|now apply Hnew].
      apply Hkeep. apply group_append_new.
Qed.

Lemma fold_left_flat_map {A B C : Type} (f : A -> C -> A) (g : B -> list C)
  (l : list B) (a : A) :
  fold_left f (flat_map g l) a = fold_left (fun acc b => fold_left f (g b) acc) l a.
Proof.
  revert a. induction l as [|b l IH]; intros a; simpl; [reflexivity|].
  now rewrite fold_left_app, IH.
Qed.

(** The two nested loops as one pass over the lookups. *)
Lemma fetch_tags_flat (api : tagging_api) (resources : list listed_resource) :
  fetch_tags api resources =
  fold_left (fun acc req => fetch_batch api (fst req) acc (snd req))
            (tag_requests resources) ([], []).
Proof.
  unfold fetch_tags, tag_requests. rewrite fold_left_flat_map.
  generalize (@nil (string * list res_tag), @nil (string * list string)).
  induction (arns_by_region resources) as [|entry rest IH]; intros acc;
    simpl; [reflexivity|].
  rewrite IH. f_equal.
  generalize acc. induction (batches (snd entry)) as [|b bs IHb]; intros acc';
    simpl; [reflexivity | apply IHb].
Qed.

Lemma tags_set_In (tm : list (string * list res_tag)) (a a0 : string)
  (ts t0 : list res_tag) :
  In (a, ts) (tags_set tm a0 t0) -> (a = a0 /\ ts = t0) \/ In (a, ts) tm.
Proof.
  induction tm as [|[a' t'] rest IH]; simpl.
  - intros [H|[]]. inversion H. auto.
  - destruct (String.eqb a' a0) eqn:E; simpl.
    + apply String.eqb_eq in E. subst a'.
      intros [H|H]; [inversion H; auto | auto].
    + intros [H|H]; [auto|]. destruct (IH H); auto.
Qed.

Lemma tags_set_keys (tm : list (string * list res_tag)) (a0 : string)
  (t0 : list res_tag) :
  In a0 (map fst (tags_set tm a0 t0))
  /\ forall a, In a (map fst tm) -> In a (map fst (tags_set tm a0 t0)).
Proof.
  induction tm as [|[a' t'] rest [IH1 IH2]]; simpl.
  - split; [now left | intros a []].
  - destruct (String.eqb a' a0) eqn:E; simpl.
    + apply String.eqb_eq in E. subst a'. split; [now left | auto].
    + split; [now right|]. intros a [H|H]; [now left | right; now apply IH2].
Qed.

Lemma tags_get_In (tm : list (string * list res_tag)) (a : string) :
  In a (map fst tm) -> In (a, tags_get tm a) tm.
Proof.
  induction tm as [|[a' t'] rest IH]; simpl; [intros []|].
  destruct (String.eqb a' a) eqn:E.
  - apply String.eqb_eq in E. subst a'. now left.
  - intros [H|H]; [|right; now apply IH].
    simpl in H. subst a'. rewrite String.eqb_refl in E. discriminate.
Qed.

Lemma tags_get_absent (tm : list (string * list res_tag)) (a : string) :
  ~ In a (map fst tm) -> tags_get tm a = [].
Proof.
  induction tm as [|[a' t'] rest IH]; simpl; [reflexivity|].
  intros Hn. destruct (String.eqb a' a) eqn:E.
  - apply String.eqb_eq in E. subst a'. exfalso. apply Hn. now left.
  - apply IH. intros H. apply Hn. now right.
Qed.

Lemma store_mappings_spec (mappings : list tag_mapping) :
  forall tm,
    (forall a ts,
       In (a, ts) (store_mappings tm mappings) ->
       In (a, ts) tm
       \/ exists m, In m mappings /\ ResourceARN m = a /\ mapping_Tags m = ts)
    /\ (forall a, In a (map fst tm) -> In a (map fst (store_mappings tm mappings)))
    /\ (forall m, In m mappings ->
          In (ResourceARN m) (map fst (store_mappings tm mappings))).
Proof.
  unfold store_mappings.
  induction mappings as [|m0 rest IH]; intros tm; simpl.
  - repeat split; auto. intros m [].
  - destruct (IH (tags_set tm (ResourceARN m0) (mapping_Tags m0)))
      as [Hin [Hkeep Hnew]].
    destruct (tags_set_keys tm (ResourceARN m0) (mapping_Tags m0)) as [Hk0 Hk].
    split; [|split].
    + intros a ts H. destruct (Hin a ts H) as [H1|[m [Hm Heq]]].
      * apply tags_set_In in H1. destruct H1 as [[-> ->]|H1]; [|auto].
        right. exists m0. split; [now left | auto].
      * right. exists m. split; [now right | exact Heq].
    + intros a Ha. apply Hkeep, Hk, Ha.
    + intros m [<-|Hm]; [apply Hkeep, Hk0 | now apply Hnew].
Qed.

Lemma fetch_fold_spec (api : tagging_api) (reqs : list (string * list string)) :
  forall acc,
    let acc' :=
      fold_left (fun acc req => fetch_batch api (fst req) acc (snd req)) reqs acc in
    snd acc' = snd acc ++ filter (refused api) reqs
    /\ (forall a ts,
          In (a, ts) (fst acc') ->
          In (a, ts) (fst acc)
          \/ exists req mappings m,
               In req reqs /\ api (fst req) (snd req) = Some mappings
               /\ In m mappings /\ ResourceARN m = a /\ mapping_Tags m = ts)
    /\ (forall a, In a (map fst (fst acc)) -> In a (map fst (fst acc')))
    /\ (forall req mappings m,
          In req reqs -> api (fst req) (snd req) = Some mappings ->
          In m mappings -> In (ResourceARN m) (map fst (fst acc'))).
Proof.
  induction reqs as [|req rest IH]; intros acc; cbn [fold_left filter].
  - cbn zeta. rewrite app_nil_r. repeat split; auto.
    intros req mappings m [].
  - destruct (IH (fetch_batch api (fst req) acc (snd req)))
      as [Hf [Hin [Hkeep Hnew]]].
    cbn zeta in *. unfold fetch_batch in Hf, Hin, Hkeep, Hnew |- *.
    unfold refused at 1.
    destruct (api (fst req) (snd req)) as [mappings|] eqn:Ea; cbn [fst snd] in *.
    + destruct (store_mappings_spec mappings (fst acc)) as [Sin [Skeep Snew]].
      split; [exact Hf|]. split; [|split].
      * intros a ts H. destruct (Hin a ts H) as [H1|[rq [ms [m [Hr Hx]]]]].
        -- destruct (Sin a ts H1) as [H2|[m [Hm [He1 He2]]]]; [auto|].
           right. exists req, mappings, m. split; [now left | auto].
        -- right. exists rq, ms, m. split; [now right | exact Hx].
      * intros a Ha. apply Hkeep, Skeep, Ha.
      * intros rq ms m [<-|Hr] Hrq Hm; [|now apply (Hnew rq ms m)].
        rewrite Ea in Hrq. inversion Hrq; subst ms. apply Hkeep, Snew, Hm.
    + split; [rewrite Hf, <- app_assoc; destruct req; reflexivity|].
      split; [|split].
      * intros a ts H. destruct (Hin a ts H) as [H1|[rq [ms [m [Hr Hx]]]]];
          [auto|].
        right. exists rq, ms, m. split; [now right | exact Hx].
      * exact Hkeep.
      * intros rq ms m [<-|Hr] Hrq Hm; [congruence | now apply (Hnew rq ms m)].
Qed.

Lemma tag_requests_cover (resources : list listed_resource) (res : listed_resource) :
  In res resources ->
  exists batch,
    In (client_region_of res, batch) (tag_requests resources)
    /\ In (get_or_empty (l_Arn res)) batch.
Proof.
  intros Hin.
  destruct (arns_by_region_covers resources []) as [_ Hcov].
  destruct (Hcov res Hin) as [l [Hl Hx]].
  rewrite <- (batches_concat l) in Hx. apply in_concat in Hx.
  destruct Hx as [batch [Hb Hx]]. exists batch. split; [|exact Hx].
  unfold tag_requests. apply in_flat_map.
  exists (client_region_of res, l). split; [exact Hl|].
  apply in_map_iff. exists batch. auto.
Qed.

(** X9. [get_tags_for_resources] looks up the ARN of every resource in
    the region of the resource: there is a batch of at most one hundred ARNs
    that holds it and that the function sends to the client of that region,
    so that the failure is recorded when the service refuses that batch.
    The region is us-east-1 when the resource has no region, an empty one
    or the region global, and the region of the resource otherwise. *)
Theorem every_arn_is_looked_up :
  forall api resources res,
    In res resources ->
    (exists batch,
       In (get_or_empty (l_Arn res)) batch
       /\ length batch <= 100
       /\ (api (client_region_of res) batch = None ->
           In (client_region_of res, batch)
              (snd (get_tags_for_resources api resources))))
    /\ client_region_of res =
       if negb (truthy (l_Region res))
          || String.eqb (get_or_empty (l_Region res)) "global"
       then "us-east-1" else get_or_empty (l_Region res).
Proof.
  intros api resources res Hin. split.
  - destruct (arns_by_region_covers resources []) as [_ Hcov].
    destruct (Hcov res Hin) as [l [Hl Hx]].
    rewrite <- (batches_concat l) in Hx. apply in_concat in Hx.
    destruct Hx as [batch [Hb Hx]]. exists batch. split; [exact Hx|].
    split.
    + unfold batches in Hb. apply in_map_iff in Hb. destruct Hb as [j [<- _]].
      rewrite length_firstn. lia.
    + intros Hnone.
      unfold get_tags_for_resources. cbn [snd]. rewrite fetch_tags_flat.
      destruct (fetch_fold_spec api (tag_requests resources) ([], []))
        as [Hf _].
      cbn zeta in Hf. rewrite Hf. cbn [snd app].
      apply filter_In. split.
      * unfold tag_requests. apply in_flat_map.
        exists (client_region_of res, l). split; [exact Hl|].
        apply in_map_iff. exists batch. auto.
      * unfold refused. cbn [fst snd]. now rewrite Hnone.
  - unfold client_region_of. destruct (truthy (l_Region res)); reflexivity.
Qed.

Lemma every_arn_is_looked_up_witness :
  exists batch,
    In "arn:aws:s3:::bucket" batch
    /\ length batch <= 100
    /\ (failing_api "us-east-1" batch = None ->
        In ("us-east-1", batch)
           (snd (get_tags_for_resources failing_api sample_listed))).
Proof.
  exact (proj1 (every_arn_is_looked_up failing_api sample_listed
                  (mkListed (Some "arn:aws:s3:::bucket") None (Some "s3")
                            (Some "s3:bucket"))
                  (or_intror (or_introl eq_refl)))).
Defined.

(** X10. The failures [get_tags_for_resources] records are exactly the
    lookups the service refused, in the order they were made; a refused
    lookup does not end the function. *)
Theorem failed_batches_are_the_refused_lookups :
  forall api resources,
    snd (get_tags_for_resources api resources)
    = filter (refused api) (tag_requests resources).
Proof.
  intros api resources. unfold get_tags_for_resources. cbn [snd].
  rewrite fetch_tags_flat.
  destruct (fetch_fold_spec api (tag_requests resources) ([], [])) as [Hf _].
  exact Hf.
Qed.

(** X11. Tags attached to a resource are never made up: a non-empty [Tags]
    list is the [Tags] of a mapping for the ARN of that resource in a
    response to one of the lookups. *)
Theorem attached_tags_come_from_a_response :
  forall api resources res,
    In res (fst (get_tags_for_resources api resources)) ->
    Tags res <> [] ->
    exists req mappings m,
      In req (tag_requests resources)
      /\ api (fst req) (snd req) = Some mappings
      /\ In m mappings
      /\ ResourceARN m = get_or_empty (Arn res)
      /\ mapping_Tags m = Tags res.
Proof.
  intros api resources res Hin Hne.
  unfold get_tags_for_resources in Hin. cbn [fst] in Hin.
  apply in_map_iff in Hin. destruct Hin as [lr [<- _]].
  cbn [Tags Arn] in *. rewrite fetch_tags_flat in *.
  destruct (fetch_fold_spec api (tag_requests resources) ([], []))
    as [_ [Hprov _]].
  cbn zeta in Hprov.
  set (tm := fst (fold_left
                    (fun acc req => fetch_batch api (fst req) acc (snd req))
                    (tag_requests resources) ([], []))) in *.
  destruct (in_dec string_dec (get_or_empty (l_Arn lr)) (map fst tm)) as [Hk|Hk].
  - apply tags_get_In in Hk.
    destruct (Hprov _ _ Hk) as [[]|[req [ms [m H]]]].
    exists req, ms, m. exact H.
  - apply tags_get_absent in Hk. congruence.
Qed.

Lemma attached_tags_come_from_a_response_witness :
  exists req mappings m,
    In req (tag_requests sample_listed)
    /\ answering_api (fun a => [mkTag (Some "Name") (Some a)]) (fst req) (snd req)
       = Some mappings
    /\ In m mappings
    /\ ResourceARN m = "arn:aws:s3:::bucket"
    /\ mapping_Tags m = [mkTag (Some "Name") (Some "arn:aws:s3:::bucket")].
Proof.
  refine (attached_tags_come_from_a_response
            (answering_api (fun a => [mkTag (Some "Name") (Some a)]))
            sample_listed
            (mkResource (Some "arn:aws:s3:::bucket") (Some "s3")
                        (Some "s3:bucket")
                        [mkTag (Some "Name") (Some "arn:aws:s3:::bucket")])
            _ _).
  - right; left; reflexivity.
  - discriminate.
Defined.

(** X12. When every lookup is refused the function still returns: every
    resource comes back, in order, with its fields and an empty [Tags]
    list. *)
Theorem refused_lookups_leave_resources_untagged :
  forall api resources,
    (forall region batch, api region batch = None) ->
    fst (get_tags_for_resources api resources)
    = map (fun res =>
             mkResource (l_Arn res) (l_Service res) (l_ResourceType res) [])
          resources.
Proof.
  intros api resources Hnone.
  unfold get_tags_for_resources. cbn [fst]. apply map_ext. intros lr.
  f_equal. rewrite fetch_tags_flat.
  destruct (fetch_fold_spec api (tag_requests resources) ([], []))
    as [_ [Hprov _]].
  cbn zeta in Hprov.
  set (tm := fst (fold_left
                    (fun acc req => fetch_batch api (fst req) acc (snd req))
                    (tag_requests resources) ([], []))) in *.
  destruct (in_dec string_dec (get_or_empty (l_Arn lr)) (map fst tm)) as [Hk|Hk].
  - apply tags_get_In in Hk.
    destruct (Hprov _ _ Hk) as [[]|[req [ms [m [_ [Ha _]]]]]].
    rewrite Hnone in Ha. discriminate.
  - now apply tags_get_absent.
Qed.

Lemma refused_lookups_leave_resources_untagged_witness :
  map Tags (fst (get_tags_for_resources failing_api sample_listed))
  = [[]; []; []].
Proof.
  rewrite (refused_lookups_leave_resources_untagged failing_api sample_listed
             (fun _ _ => eq_refl)).
  reflexivity.
Defined.

(** X13. With a service that answers every lookup, reports for each ARN the
    tags [tags_of] gives it and leaves out no ARN of the batch that has
    tags, every resource comes back with the tags of its own ARN, however
    the resources are spread over regions and batches, and no failure is
    recorded. *)
Theorem answered_lookups_attach_own_tags :
  forall api tags_of resources,
    (forall region batch,
       exists mappings,
         api region batch = Some mappings
         /\ (forall m, In m mappings -> mapping_Tags m = tags_of (ResourceARN m))
         /\ (forall a, In a batch -> tags_of a <> [] ->
               exists m, In m mappings /\ ResourceARN m = a)) ->
    get_tags_for_resources api resources
    = (map (fun res =>
              mkResource (l_Arn res) (l_Service res) (l_ResourceType res)
                         (tags_of (get_or_empty (l_Arn res))))
           resources,
       []).
Proof.
  intros api tags_of resources Hapi.
  assert (Hnone : forall reqs, filter (refused api) reqs = []).
  { induction reqs as [|req rest IH]; [reflexivity|].
    cbn [filter]. unfold refused at 1.
    destruct (Hapi (fst req) (snd req)) as [ms [-> _]]. exact IH. }
  unfold get_tags_for_resources. rewrite fetch_tags_flat.
  destruct (fetch_fold_spec api (tag_requests resources) ([], []))
    as [Hf [Hprov [_ Hnew]]].
  cbn zeta in Hf, Hprov, Hnew.
  set (acc := fold_left
                (fun acc req => fetch_batch api (fst req) acc (snd req))
                (tag_requests resources) ([], [])) in *.
  f_equal.
  - apply map_ext_in. intros lr Hlr. f_equal.
    set (a := get_or_empty (l_Arn lr)).
    assert (Hcons : forall ts, In (a, ts) (fst acc) -> ts = tags_of a).
    { intros ts Hin.
      destruct (Hprov _ _ Hin) as [[]|[req [ms [m [_ [Ha [Hm [Hr Ht]]]]]]]].
      destruct (Hapi (fst req) (snd req)) as [ms' [Ha' [Hc _]]].
      rewrite Ha in Ha'. inversion Ha'; subst ms'.
      rewrite <- Ht, <- Hr. now apply Hc. }
    destruct (in_dec string_dec a (map fst (fst acc))) as [Hk|Hk].
    + apply Hcons. now apply tags_get_In.
    + rewrite (tags_get_absent _ _ Hk).
      destruct (tags_of a) as [|t ts] eqn:Et; [reflexivity|].
      exfalso. apply Hk.
      destruct (tag_requests_cover resources lr Hlr) as [batch [Hreq Hin]].
      destruct (Hapi (client_region_of lr) batch) as [ms [Ha [_ Hall]]].
      destruct (Hall a Hin) as [m [Hm Hr]]; [rewrite Et; discriminate|].
      rewrite <- Hr.
      apply (Hnew (client_region_of lr, batch) ms m Hreq Ha Hm).
  - rewrite Hf. apply Hnone.
Qed.

Lemma answered_lookups_attach_own_tags_witness :
  map Tags
      (fst (get_tags_for_resources
              (answering_api (fun a => [mkTag (Some "Name") (Some a)]))
              sample_listed))
  = map (fun res => [mkTag (Some "Name") (Some (get_or_empty (l_Arn res)))])
        sample_listed.
Proof.
  rewrite (answered_lookups_attach_own_tags
             (answering_api (fun a => [mkTag (Some "Name") (Some a)]))
             (fun a => [mkTag (Some "Name") (Some a)]) sample_listed).
  - reflexivity.
  - intros region batch. eexists. split; [reflexivity|]. split.
    + intros m Hm. apply in_map_iff in Hm. destruct Hm as [a [<- _]].
      reflexivity.
    + intros a Ha _. exists (mkMapping a [mkTag (Some "Name") (Some a)]).
      split; [|reflexivity].
      apply in_map_iff. exists a. split; [reflexivity | exact Ha].
Defined.

(** ** get_resource_name and get_match_keys *)

(** X14. [get_resource_name] returns the value of the first tag whose key
    is exactly Name (a key name or NAME does not count), and [None] when no
    tag has that key. *)
Theorem get_resource_name_first_Name_tag :
  forall before,
    (forall t, In t before -> tag_Key t <> Some "Name") ->
    get_resource_name before = None
    /\ forall t after,
         tag_Key t = Some "Name" ->
         get_resource_name (before ++ t :: after) = tag_Value t.
Proof.
  induction before as [|t0 rest IH]; intros Hno.
  - split; [reflexivity|]. intros t after Ht. simpl. now rewrite Ht.
  - assert (Hrest : forall t, In t rest -> tag_Key t <> Some "Name")
      by (intros t Ht; apply Hno; now right).
    destruct (IH Hrest) as [IHn IHs].
    assert (H0 : tag_Key t0 <> Some "Name") by (apply Hno; now left).
    assert (Hstep : forall l, get_resource_name (t0 :: l) = get_resource_name l).
    { intros l. simpl. destruct (tag_Key t0) as [k|]; [|reflexivity].
      destruct (String.eqb k "Name") eqn:E; [|reflexivity].
      apply String.eqb_eq in E. subst k. congruence. }
    split.
    + now rewrite Hstep.
    + intros t after Ht. cbn [app]. rewrite Hstep. now apply IHs.
Qed.

Lemma get_resource_name_first_Name_tag_witness :
  get_resource_name
    ([mkTag (Some "name") (Some "lower"); mkTag None (Some "none")]
       ++ mkTag (Some "Name") (Some "web-01")
       :: [mkTag (Some "Name") (Some "second")])
  = Some "web-01".
Proof.
  refine (proj2 (get_resource_name_first_Name_tag
                   [mkTag (Some "name") (Some "lower"); mkTag None (Some "none")] _)
                (mkTag (Some "Name") (Some "web-01"))
                [mkTag (Some "Name") (Some "second")] eq_refl).
  intros t [<-|[<-|[]]]; discriminate.
Defined.

Lemma set_add_shape (x : string) (keys : list string) :
  NoDup keys ->
  NoDup (set_add x keys) /\ In x (set_add x keys)
  /\ length keys <= length (set_add x keys) <= S (length keys).
Proof.
  intros Hnd. unfold set_add.
  destruct (existsb (String.eqb x) keys) eqn:E.
  - split; [exact Hnd|]. split; [|lia].
    apply existsb_exists in E. destruct E as [y [Hy Heq]].
    apply String.eqb_eq in Heq. now subst.
  - split; [|split].
    + apply NoDup_app; [exact Hnd | repeat constructor; intros [] |].
      intros y Hy [Hx|[]]. subst y.
      assert (existsb (String.eqb x) keys = true); [|congruence].
      apply existsb_exists. exists x. split; [exact Hy | apply String.eqb_refl].
    + apply in_or_app. right. now left.
    + rewrite length_app. simpl. lia.
Qed.

(** X15. The match keys are a set: [get_match_keys] returns between one and
    four pairwise distinct keys, and the lower-cased service is always one
    of them. *)
Theorem get_match_keys_is_a_small_set :
  forall service subtype arn name,
    NoDup (get_match_keys service subtype arn name)
    /\ In (lower service) (get_match_keys service subtype arn name)
    /\ 1 <= length (get_match_keys service subtype arn name) <= 4.
Proof.
  intros service subtype arn name. unfold get_match_keys.
  set (k1 := if nonempty arn then set_add arn [] else []).
  assert (H1 : NoDup k1 /\ length k1 <= 1).
  { unfold k1. destruct (nonempty arn); simpl; split;
      try lia; repeat constructor. intros []. }
  set (k2 := match name with
             | Some n => if nonempty n then set_add n k1 else k1
             | None => k1
             end).
  assert (H2 : NoDup k2 /\ length k2 <= 2).
  { unfold k2. destruct H1 as [Hn Hl].
    destruct name as [n|]; [|split; [exact Hn | lia]].
    destruct (nonempty n); [|split; [exact Hn | lia]].
    destruct (set_add_shape n k1 Hn) as [Hn' [_ Hl']]. split; [exact Hn' | lia]. }
  set (k3 := if nonempty subtype
             then if contains ":" (lower subtype)
                  then set_add (lower subtype) k2
                  else set_add (lower service ++ ":" ++ lower subtype) k2
             else k2).
  assert (H3 : NoDup k3 /\ length k3 <= 3).
  { unfold k3. destruct H2 as [Hn Hl].
    destruct (nonempty subtype); [|split; [exact Hn | lia]].
    destruct (contains ":" (lower subtype)).
    - destruct (set_add_shape (lower subtype) k2 Hn) as [Hn' [_ Hl']].
      split; [exact Hn' | lia].
    - destruct (set_add_shape (lower service ++ ":" ++ lower subtype) k2 Hn)
        as [Hn' [_ Hl']].
      split; [exact Hn' | lia]. }
  destruct H3 as [Hn Hl].
  destruct (set_add_shape (lower service) k3 Hn) as [Hn' [Hin Hl']].
  split; [exact Hn'|]. split; [exact Hin|].
  split; [|lia].
  destruct (set_add (lower service) k3); [destruct Hin | simpl; lia].
Qed.

(** ** write_plan: where rows come from *)

Lemma dict_get_In (d : tag_map) (k : string) (r : rule) :
  In r (dict_get d k) -> exists rl, In (k, rl) d /\ In r rl.
Proof.
  induction d as [|[k' v] rest IH]; simpl; [intros []|].
  destruct (String.eqb k' k) eqn:E.
  - apply String.eqb_eq in E. subst k'. intros H. exists v. auto.
  - intros H. destruct (IH H) as [rl [Hin Hr]]. exists rl. auto.
Qed.

Lemma tag_filter_rule_sub (rule_key : string) (rule_list : list rule)
  (res_tags : list res_tag) (kv : tag_kv) :
  In kv (tag_filter_rule rule_key rule_list res_tags) ->
  In kv (map kv_of rule_list).
Proof.
  unfold tag_filter_rule.
  destruct (startswith "tag:" rule_key); [|intros []].
  destruct (splitn ":" 2 rule_key) as [|p0 [|p1 [|p2 [|p3 ps]]]];
    try (intros []).
  intros H. apply in_flat_map in H. destruct H as [t [_ H]].
  destruct (tag_matches _ _ _ t); [exact H | destruct H].
Qed.

Lemma matched_tag_has_rule set_iter tag_rules service subtype arn res_tags kv :
  In kv (matched_tags set_iter tag_rules service subtype arn res_tags
         ++ all_tags tag_rules) ->
  exists rule_key rule_list r,
    In (rule_key, rule_list) tag_rules /\ In r rule_list /\ kv = kv_of r.
Proof.
  unfold matched_tags, exact_tags, partial_tags, tag_filter_tags, all_tags.
  rewrite !in_app_iff. intros [[H|[H|H]]|H].
  - apply in_flat_map in H. destruct H as [key [_ H]].
    apply in_flat_map in H. destruct H as [r [Hr H]].
    destruct (Partial r); [destruct H|]. destruct H as [<-|[]].
    destruct (dict_get_In _ _ _ Hr) as [rl [Hin Hrl]].
    exists key, rl, r. auto.
  - destruct (get_resource_name res_tags) as [name|]; [|destruct H].
    destruct (nonempty name); [|destruct H].
    apply in_flat_map in H. destruct H as [[rule_key rule_list] [Hin H]].
    apply in_flat_map in H. destruct H as [r [Hr H]].
    destruct (Partial r && contains rule_key name); [|destruct H].
    destruct H as [<-|[]]. exists rule_key, rule_list, r. auto.
  - apply in_flat_map in H. destruct H as [[rule_key rule_list] [Hin H]].
    apply tag_filter_rule_sub in H. apply in_map_iff in H.
    destruct H as [r [<- Hr]]. exists rule_key, rule_list, r. auto.
  - apply in_map_iff in H. destruct H as [r [<- Hr]].
    destruct (dict_get_In _ _ _ Hr) as [rl [Hin Hrl]].
    exists "all", rl, r. auto.
Qed.

Lemma write_plan_row_origin set_iter tag_rules region_filter resources a k v :
  In (a, k, v)
     (out (fst (write_plan set_iter tag_rules region_filter resources))) ->
  exists res,
    In res resources /\ Arn res = Some a
    /\ exists rule_key rule_list r,
         In (rule_key, rule_list) tag_rules /\ In r rule_list
         /\ k = Key r /\ v = Value r.
Proof.
  intros H. apply write_plan_In in H. destruct H as [res [Hres Hrow]].
  apply (run_prefix_In set_iter tag_rules region_filter) in Hres.
  apply body_rows_In in Hrow.
  destruct Hrow as [service [rg [Ha [_ [_ [_ [_ Hkv]]]]]]].
  exists res. split; [exact Hres|]. split; [exact Ha|].
  destruct (matched_tag_has_rule _ _ _ _ _ _ _ Hkv) as [rk [rl [r [H1 [H2 H3]]]]].
  exists rk, rl, r. unfold kv_of in H3. inversion H3.
  repeat split; assumption || reflexivity.
Qed.

(** X16. Every row of the plan comes from the input: its ARN is the [Arn]
    of a resource of the list, and its key and value are those of one rule
    of the table.  The plan never holds a tag no rule asks for. *)
Theorem plan_rows_come_from_resources_and_rules :
  forall set_iter tag_rules region_filter resources a k v,
    In (a, k, v)
       (out (fst (write_plan set_iter tag_rules region_filter resources))) ->
    exists res,
      In res resources /\ Arn res = Some a
      /\ exists rule_key rule_list r,
           In (rule_key, rule_list) tag_rules /\ In r rule_list
           /\ k = Key r /\ v = Value r.
Proof.
  intros. now apply (write_plan_row_origin set_iter tag_rules region_filter).
Qed.

Lemma plan_rows_come_from_resources_and_rules_witness :
  exists res,
    In res [named_instance "web-01"]
    /\ Arn res = Some "arn:aws:ec2:us-west-2:111122223333:instance/i-0abc"
    /\ exists rule_key rule_list r,
         In (rule_key, rule_list) service_and_type_rules /\ In r rule_list
         /\ Some "Backup" = Key r /\ Some "Daily" = Value r.
Proof.
  apply (plan_rows_come_from_resources_and_rules insertion_order
           service_and_type_rules "us-west-2" [named_instance "web-01"]).
  left; reflexivity.
Defined.

(** X17. With an empty rule table the plan has no row, whatever the
    resources are. *)
Theorem empty_rule_table_gives_empty_plan :
  forall set_iter region_filter resources,
    out (fst (write_plan set_iter [] region_filter resources)) = [].
Proof.
  intros set_iter region_filter resources.
  destruct (out (fst (write_plan set_iter [] region_filter resources)))
    as [|[[a k] v] rest] eqn:E; [reflexivity|].
  assert (Hin : In (a, k, v)
                   (out (fst (write_plan set_iter [] region_filter resources))))
    by (rewrite E; now left).
  apply write_plan_row_origin in Hin.
  destruct Hin as [_ [_ [_ [rk [rl [r [[] _]]]]]]].
Qed.

(** ** write_plan: rules that must appear *)

(** X18. In a run that completes and visits every match key, a rule that
    is not flagged partial and is stored under one of the match keys of a
    processed resource (its identifier, its name, its type key or its
    lower-cased service) has its row in the plan. *)
Theorem exact_rule_is_planned :
  forall set_iter tag_rules region_filter resources res arn service rg key r,
    set_order set_iter ->
    In res resources ->
    snd (write_plan set_iter tag_rules region_filter resources) = None ->
    Arn res = Some arn -> Service res = Some service ->
    nonempty arn = true -> nonempty service = true ->
    nth_error (split ":" arn) 3 = Some rg ->
    (rg = EmptyString \/ rg = region_filter) ->
    In key (get_match_keys service (get_or_empty (ResourceType res)) arn
                           (get_resource_name (Tags res))) ->
    In r (dict_get tag_rules key) -> Partial r = false ->
    In (arn, Key r, Value r)
       (out (fst (write_plan set_iter tag_rules region_filter resources))).
Proof.
  intros set_iter tag_rules region_filter resources res arn service rg key r
         Hord Hin Hdone Ha Hs Hna Hns Hn Hrg Hkey Hr Hp.
  apply write_plan_In.
  destruct (write_plan_spec set_iter tag_rules region_filter resources)
    as [_ He].
  rewrite Hdone in He.
  destruct (forallb (fun x => negb (body_raises x)) resources) eqn:Eall;
    [|discriminate].
  exists res. split; [rewrite (run_prefix_all resources Eall); exact Hin|].
  destruct (body_rows_proceed set_iter tag_rules region_filter res arn
              service rg Ha Hs Hna Hns Hn Hrg) as [_ ->].
  assert (Hex : In (kv_of r)
                   (matched_tags set_iter tag_rules service
                      (get_or_empty (ResourceType res)) arn (Tags res))).
  { unfold matched_tags. apply in_or_app. left. unfold exact_tags.
    apply in_flat_map. exists key. split.
    - eapply Permutation_in; [apply Permutation_sym, Hord | exact Hkey].
    - apply in_flat_map. exists r. split; [exact Hr|].
      rewrite Hp. now left. }
  destruct (matched_tags set_iter tag_rules service
              (get_or_empty (ResourceType res)) arn (Tags res)) as [|t ts];
    [destruct Hex|].
  apply in_map_iff. exists (kv_of r). split; [reflexivity|].
  apply in_or_app. now left.
Qed.

Lemma exact_rule_is_planned_witness :
  In ("arn:aws:ec2:us-west-2:111122223333:instance/i-0abc", Some "Schedule", Some "24x7")
     (out (fst (write_plan reverse_order service_and_type_rules "us-west-2"
                  [named_instance "web-01"]))).
Proof.
  refine (exact_rule_is_planned reverse_order service_and_type_rules
            "us-west-2" [named_instance "web-01"] (named_instance "web-01")
            "arn:aws:ec2:us-west-2:111122223333:instance/i-0abc" "ec2"
            "us-west-2" "ec2" (mkRule (Some "Schedule") (Some "24x7") false)
            (fun keys => Permutation_sym (Permutation_rev keys))
            (or_introl eq_refl) eq_refl eq_refl eq_refl eq_refl eq_refl eq_refl
            (or_intror eq_refl) _ (or_introl eq_refl) eq_refl).
  vm_compute. auto 6.
Defined.

(** ** write_plan: how the plan grows *)

Lemma plan_loop_app set_iter tag_rules region_filter (before after : list resource) :
  forall st,
    plan_loop set_iter tag_rules region_filter (before ++ after) st =
    match plan_loop set_iter tag_rules region_filter before st with
    | (st', None) => plan_loop set_iter tag_rules region_filter after st'
    | (st', Some e) => (st', Some e)
    end.
Proof.
  induction before as [|res rest IH]; intros st; simpl; [reflexivity|].
  destruct (plan_body set_iter tag_rules region_filter res st);
    [apply IH | reflexivity].
Qed.

(** X19. Resources added at the end of the list never change the rows
    already planned: the plan of the longer list begins with the plan of the
    shorter one, and when the run over the shorter list raises, the longer
    run ends in the same state with the same exception. *)
Theorem plan_grows_by_appending :
  forall set_iter tag_rules region_filter resources more,
    (exists extra,
       out (fst (write_plan set_iter tag_rules region_filter (resources ++ more)))
       = out (fst (write_plan set_iter tag_rules region_filter resources))
         ++ extra)
    /\ (snd (write_plan set_iter tag_rules region_filter resources) <> None ->
        write_plan set_iter tag_rules region_filter (resources ++ more)
        = write_plan set_iter tag_rules region_filter resources).
Proof.
  intros set_iter tag_rules region_filter resources more.
  unfold write_plan. rewrite plan_loop_app.
  destruct (plan_loop set_iter tag_rules region_filter resources
              (mkState [] [] [])) as [st' [e|]] eqn:E; cbn [fst snd].
  - split; [exists []; now rewrite app_nil_r | reflexivity].
  - split; [|congruence].
    destruct (plan_loop_spec set_iter tag_rules region_filter more st')
      as [Ho _].
    eexists. exact Ho.
Qed.

Lemma first_occurrences_seen (seen l : list row) :
  (forall r, In r l -> In r seen) -> first_occurrences seen l = [].
Proof.
  intros Hall.
  destruct (first_occurrences seen l) as [|r rest] eqn:E; [reflexivity|].
  assert (Hin : In r (first_occurrences seen l)) by (rewrite E; now left).
  apply first_occurrences_In in Hin. destruct Hin as [Hl Hn].
  exfalso. apply Hn, Hall, Hl.
Qed.

(** X20. A resource listed a second time adds nothing: in a run that
    completes, appending a resource the list already holds leaves the rows
    of the plan as they are. *)
Theorem repeated_resource_adds_no_rows :
  forall set_iter tag_rules region_filter resources res,
    In res resources ->
    snd (write_plan set_iter tag_rules region_filter resources) = None ->
    out (fst (write_plan set_iter tag_rules region_filter (resources ++ [res])))
    = out (fst (write_plan set_iter tag_rules region_filter resources)).
Proof.
  intros set_iter tag_rules region_filter resources res Hin Hdone.
  destruct (write_plan_spec set_iter tag_rules region_filter resources)
    as [Ho He].
  rewrite Hdone in He.
  destruct (forallb (fun x => negb (body_raises x)) resources) eqn:Eall;
    [|discriminate].
  assert (Hres : body_raises res = false).
  { rewrite forallb_forall in Eall. specialize (Eall res Hin).
    now apply negb_true_iff in Eall. }
  destruct (write_plan_spec set_iter tag_rules region_filter (resources ++ [res]))
    as [Ho' _].
  rewrite Ho', Ho.
  assert (Hall : forallb (fun x => negb (body_raises x)) (resources ++ [res]) = true).
  { rewrite forallb_app, Eall. simpl. now rewrite Hres. }
  rewrite (run_prefix_all _ Hall), (run_prefix_all _ Eall).
  assert (Hflat : flat_map (body_rows set_iter tag_rules region_filter)
                           (resources ++ [res])
                  = flat_map (body_rows set_iter tag_rules region_filter) resources
                    ++ body_rows set_iter tag_rules region_filter res).
  { rewrite flat_map_app. simpl. now rewrite app_nil_r. }
  rewrite Hflat, first_occurrences_app.
  rewrite (first_occurrences_seen _ (body_rows set_iter tag_rules region_filter res)).
  - apply app_nil_r.
  - intros r Hr. apply in_or_app. left. apply in_rev.
    rewrite rev_involutive. apply first_occurrences_In. split; [|intros []].
    apply in_flat_map. exists res. auto.
Qed.

Lemma repeated_resource_adds_no_rows_witness :
  out (fst (write_plan insertion_order service_and_type_rules "us-west-2"
              ([named_instance "web-01"] ++ [named_instance "web-01"])))
  = out (fst (write_plan insertion_order service_and_type_rules "us-west-2"
                [named_instance "web-01"])).
Proof.
  apply repeated_resource_adds_no_rows; [left; reflexivity | reflexivity].
Defined.

(** X21. A resource whose identifier has an empty region field (an S3
    bucket, an IAM role) is treated alike under every region filter: the
    loop body gives the same result whatever [region_filter] is. *)
Theorem empty_region_field_passes_any_filter :
  forall set_iter tag_rules res arn,
    Arn res = Some arn ->
    nth_error (split ":" arn) 3 = Some EmptyString ->
    forall filter1 filter2 st,
      plan_body set_iter tag_rules filter1 res st
      = plan_body set_iter tag_rules filter2 res st.
Proof.
  intros set_iter tag_rules res arn Ha Hn filter1 filter2 st.
  unfold plan_body. rewrite Ha, Hn. reflexivity.
Qed.

Lemma empty_region_field_passes_any_filter_witness :
  plan_body insertion_order service_and_type_rules "us-west-2"
    (mkResource (Some "arn:aws:s3:::bucket") (Some "s3") (Some "s3:bucket") [])
    (mkState [] [] [])
  = plan_body insertion_order service_and_type_rules "eu-west-1"
      (mkResource (Some "arn:aws:s3:::bucket") (Some "s3") (Some "s3:bucket") [])
      (mkState [] [] []).
Proof.
  apply (empty_region_field_passes_any_filter insertion_order
           service_and_type_rules
           (mkResource (Some "arn:aws:s3:::bucket") (Some "s3")
                       (Some "s3:bucket") [])
           "arn:aws:s3:::bucket" eq_refl eq_refl).
Defined.

(** ** write_plan: the set written, the log and the file *)

Lemma wrote_rows_app (l1 l2 : list log_entry) :
  wrote_rows (l1 ++ l2) = wrote_rows l1 ++ wrote_rows l2.
Proof. unfold wrote_rows. apply flat_map_app. Qed.

Lemma write_rows_mirrors (arn : string) (tags : list tag_kv) :
  forall st, mirrors st -> mirrors (write_rows arn tags st).
Proof.
  induction tags as [|[k v] rest IH]; intros st Hm; simpl; [exact Hm|].
  destruct (row_in (arn, k, v) (written st)); [now apply IH|].
  apply IH. destruct Hm as [Hw Hl]. split; simpl.
  - rewrite rev_app_distr, Hw. reflexivity.
  - rewrite wrote_rows_app, Hl. reflexivity.
Qed.

Lemma plan_body_mirrors set_iter tag_rules region_filter res st :
  mirrors st ->
  match plan_body set_iter tag_rules region_filter res st with
  | Next st' => mirrors st'
  | Raised _ st' => mirrors st'
  end.
Proof.
  intros Hm. unfold plan_body.
  destruct (Arn res) as [arn|]; [|exact Hm].
  destruct (Service res) as [service|]; [|exact Hm].
  destruct (negb (nonempty arn) || negb (nonempty service)); [exact Hm|].
  destruct (nth_error (split ":" arn) 3) as [rg|]; [|exact Hm].
  assert (Hlog : forall e,
            wrote_rows [e] = [] ->
            mirrors (mkState (out st) (written st) (log st ++ [e]))).
  { intros e He. destruct Hm as [Hw Hl]. split; simpl; [exact Hw|].
    now rewrite wrote_rows_app, He, app_nil_r. }
  destruct (nonempty rg && negb (String.eqb rg region_filter));
    [now apply Hlog|].
  destruct (matched_tags _ _ _ _ _ _) as [|t ts]; [now apply Hlog|].
  now apply write_rows_mirrors.
Qed.

(** X22. At the end of a run the set [written] holds exactly the rows of
    the plan (the latest first), and the lines the log reports as written
    are the rows of the plan in the order of the file. *)
Theorem written_set_and_log_mirror_the_plan :
  forall set_iter tag_rules region_filter resources,
    written (fst (write_plan set_iter tag_rules region_filter resources))
    = rev (out (fst (write_plan set_iter tag_rules region_filter resources)))
    /\ wrote_rows
         (log (fst (write_plan set_iter tag_rules region_filter resources)))
       = out (fst (write_plan set_iter tag_rules region_filter resources)).
Proof.
  intros set_iter tag_rules region_filter resources. unfold write_plan.
  assert (H0 : mirrors (mkState [] [] [])) by (split; reflexivity).
  revert H0. generalize (mkState [] [] []).
  induction resources as [|res rest IH]; intros st Hm; simpl; [exact Hm|].
  pose proof (plan_body_mirrors set_iter tag_rules region_filter res st Hm) as Hb.
  destruct (plan_body set_iter tag_rules region_filter res st) as [st'|e st'];
    [now apply IH | exact Hb].
Qed.

(** X23. When no rule of the table has a missing key or value (every
    accepted record reached the TagKey and TagValue columns), the plan file
    has no line twice, its header included: the rows written are distinct,
    and a data row cannot repeat the header, because its first field is an
    identifier with at least four colon-separated fields. *)
Theorem plan_file_lines_are_distinct :
  forall set_iter tag_rules region_filter resources,
    (forall rule_key rule_list r,
       In (rule_key, rule_list) tag_rules -> In r rule_list ->
       Key r <> None /\ Value r <> None) ->
    NoDup (plan_lines
             (fst (write_plan set_iter tag_rules region_filter resources))).
Proof.
  intros set_iter tag_rules region_filter resources Hfull. unfold plan_lines.
  assert (Hsome : forall a k v,
            In (a, k, v)
               (out (fst (write_plan set_iter tag_rules region_filter resources))) ->
            k <> None /\ v <> None).
  { intros a k v Hin. apply write_plan_row_origin in Hin.
    destruct Hin as [_ [_ [_ [rk [rl [r [H1 [H2 [-> ->]]]]]]]]].
    now apply (Hfull rk rl r). }
  constructor.
  - intros Hin. apply in_map_iff in Hin. destruct Hin as [[[a k] v] [Heq Hin]].
    inversion Heq; subst.
    apply write_plan_In in Hin. destruct Hin as [res [_ Hrow]].
    apply body_rows_In in Hrow.
    destruct Hrow as [service [rg [_ [_ [Hn _]]]]]. discriminate Hn.
  - destruct (write_plan_spec set_iter tag_rules region_filter resources)
      as [Ho _].
    pose proof (first_occurrences_NoDup []
                  (flat_map (body_rows set_iter tag_rules region_filter)
                            (run_prefix resources))) as Hnd.
    rewrite <- Ho in Hnd. clear Ho.
    induction Hnd as [|[[a k] v] l Hx Hnd IH]; simpl; constructor.
    + intros Hin. apply in_map_iff in Hin.
      destruct Hin as [[[a' k'] v'] [Heq Hin]]. inversion Heq; subst a'.
      destruct (Hsome a k v (or_introl eq_refl)) as [Hk Hv].
      destruct (Hsome a k' v' (or_intror Hin)) as [Hk' Hv'].
      destruct k as [k|], v as [v|], k' as [k'|], v' as [v'|];
        try congruence.
      simpl in *. subst. contradiction.
    + apply IH. intros a0 k0 v0 H0. apply (Hsome a0 k0 v0). now right.
Qed.

Lemma plan_file_lines_are_distinct_witness :
  NoDup (plan_lines
           (fst (write_plan insertion_order service_and_type_rules "us-west-2"
                   [named_instance "web-01"; named_instance "web-01"]))).
Proof.
  apply plan_file_lines_are_distinct.
  intros rule_key rule_list r Hin Hr.
  destruct Hin as [Hin|[Hin|[Hin|[]]]]; inversion Hin; subst rule_list;
    destruct Hr as [<-|[]]; split; discriminate.
Defined.

(** ** Filters that match nothing, and where partial rules match *)

Lemma splitn_no_cut (k : string) :
  contains ":" k = false -> forall n, splitn ":" n k = [k].
Proof.
  induction k as [|a k IH]; intros H n.
  - destruct n; reflexivity.
  - apply contains_colon_cons in H. destruct H as [Ha Hk].
    destruct n as [|n]; [reflexivity|].
    cbn [splitn]. rewrite Ha, (IH Hk). reflexivity.
Qed.

(** X24. A tag filter without a value part, [tag:<key>], is accepted by the
    loader but never matches: the tag-filter step emits nothing for it,
    whatever tags the resource has. *)
Theorem tag_filter_without_value_never_matches :
  forall tag_key rule_list res_tags,
    contains ":" tag_key = false ->
    tag_filter_rule ("tag:" ++ tag_key) rule_list res_tags = [].
Proof.
  intros tag_key rule_list res_tags Hk. unfold tag_filter_rule.
  change (startswith "tag:" ("tag:" ++ tag_key)) with true.
  change (splitn ":" 2 ("tag:" ++ tag_key))
    with ("tag" :: splitn ":" 1 tag_key).
  rewrite (splitn_no_cut tag_key Hk). reflexivity.
Qed.

Lemma tag_filter_without_value_never_matches_witness :
  tag_filter_rule "tag:environment" [mkRule (Some "Tier") (Some "Production") false]
    [mkTag (Some "Environment") (Some "prod")] = [].
Proof.
  exact (tag_filter_without_value_never_matches "environment"
           [mkRule (Some "Tier") (Some "Production") false]
           [mkTag (Some "Environment") (Some "prod")] eq_refl).
Defined.

Lemma startswith_spec (p : string) :
  forall s, startswith p s = true <-> exists post, s = (p ++ post)%string.
Proof.
  induction p as [|a p IH]; intros s; simpl.
  - split; [intros _; exists s; reflexivity | reflexivity].
  - destruct s as [|b s].
    + split; [discriminate | intros [post H]; discriminate H].
    + rewrite andb_true_iff, Ascii.eqb_eq, IH. split.
      * intros [-> [post ->]]. exists post. reflexivity.
      * intros [post H]. inversion H. split; [reflexivity | exists post; reflexivity].
Qed.

Lemma contains_spec (sub : string) :
  forall s,
    contains sub s = true <-> exists pre post, s = (pre ++ sub ++ post)%string.
Proof.
  induction s as [|c s IH]; cbn [contains]; rewrite orb_true_iff, startswith_spec.
  - split.
    + intros [[post H]|H]; [|discriminate]. exists EmptyString, post. exact H.
    + intros [pre [post H]]. left. destruct pre; [|discriminate H].
      exists post. exact H.
  - rewrite IH. split.
    + intros [[post H]|[pre [post H]]].
      * exists EmptyString, post. exact H.
      * exists (String c pre), post. simpl. now rewrite H.
    + intros [pre [post H]]. destruct pre as [|c' pre].
      * left. exists post. exact H.
      * right. simpl in H. inversion H. exists pre, post. reflexivity.
Qed.

(** X25. The partial-name step matches by containment anywhere: for a
    resource with a non-empty name it emits a tag exactly when the tag is
    that of a rule flagged partial whose key occurs in the name, at the
    beginning, in the middle or at the end (so a rule with the empty key,
    written as a lone tilde, matches every named resource). *)
Theorem partial_rule_matches_any_occurrence :
  forall tag_rules name kv,
    nonempty name = true ->
    (In kv (partial_tags tag_rules (Some name)) <->
     exists rule_key rule_list r before after,
       In (rule_key, rule_list) tag_rules /\ In r rule_list
       /\ Partial r = true
       /\ name = (before ++ rule_key ++ after)%string
       /\ kv = kv_of r).
Proof.
  intros tag_rules name kv Hn. unfold partial_tags. rewrite Hn.
  rewrite in_flat_map. split.
  - intros [[rule_key rule_list] [Hin H]].
    apply in_flat_map in H. destruct H as [r [Hr H]].
    destruct (Partial r) eqn:Ep; [|destruct H].
    destruct (contains rule_key name) eqn:Ec; [|destruct H].
    destruct H as [<-|[]].
    apply contains_spec in Ec. destruct Ec as [before [after Hname]].
    exists rule_key, rule_list, r, before, after. auto.
  - intros [rule_key [rule_list [r [before [after [Hin [Hr [Ep [Hname ->]]]]]]]]].
    exists (rule_key, rule_list). split; [exact Hin|].
    apply in_flat_map. exists r. split; [exact Hr|].
    assert (Ec : contains rule_key name = true)
      by (apply contains_spec; exists before, after; exact Hname).
    rewrite Ep, Ec. now left.
Qed.

Lemma partial_rule_matches_any_occurrence_witness :
  In (Some "Application", Some "CRM")
     (partial_tags [("web", [mkRule (Some "Application") (Some "CRM") true])]
                   (Some "new-web-01")).
Proof.
  apply (partial_rule_matches_any_occurrence
           [("web", [mkRule (Some "Application") (Some "CRM") true])] "new-web-01"
           (Some "Application", Some "CRM") eq_refl).
  exists "web", [mkRule (Some "Application") (Some "CRM") true],
         (mkRule (Some "Application") (Some "CRM") true), "new-", "-01".
  repeat split; try reflexivity; left; reflexivity.
Defined.

(** ** main: a view that is not found *)

(** X26. When the view is not found ([get_view_arn] gave [None] or an empty
    string), [main] ends with an exception, which is exit status 1 when the
    rules had loaded, and it neither lists resources nor writes a plan. *)
Theorem main_stops_when_view_is_missing :
  forall set_iter path reader region view_arn resources,
    truthy view_arn = false ->
    (exists e,
       snd (main set_iter path reader region view_arn resources) = Some e
       /\ ((exists tm lg, load_tag_rules path reader = Ok (tm, lg)) ->
           main set_iter path reader region view_arn resources
           = ([GetCallerIdentity; ListViews], Some (SystemExit 1))))
    /\ ~ In ListResources
            (fst (main set_iter path reader region view_arn resources))
    /\ forall lines,
         ~ In (PlanWritten lines)
              (fst (main set_iter path reader region view_arn resources)).
Proof.
  intros set_iter path reader region view_arn resources Hv. unfold main.
  destruct (load_tag_rules path reader) as [[tm lg]|e]; rewrite ?Hv;
    cbn [negb fst snd app].
  - split; [eexists; split; [reflexivity | intros _; reflexivity]|].
    split; [|intros lines]; intros [H|[H|[]]]; discriminate H.
  - split; [exists e; split; [reflexivity | intros [tm [lg H]]; discriminate H]|].
    split; [|intros lines]; intros [H|[]]; discriminate H.
Qed.

Lemma main_stops_when_view_is_missing_witness :
  main insertion_order "tags.csv"
       (DictReader rules_header [["ec2"; "Schedule"; "24x7"]]) "us-west-2"
       None [named_instance "web-01"]
  = ([GetCallerIdentity; ListViews], Some (SystemExit 1)).
Proof.
  destruct (main_stops_when_view_is_missing insertion_order "tags.csv"
              (DictReader rules_header [["ec2"; "Schedule"; "24x7"]])
              "us-west-2" None [named_instance "web-01"] eq_refl)
    as [[e [_ H]] _].
  apply H. eexists. eexists. reflexivity.
Defined.

(** ** Letter case of the service and of the resource type *)

Lemma nonempty_lower (s : string) : nonempty (lower s) = nonempty s.
Proof. destruct s; reflexivity. Qed.

(** X27. The service and the resource type are matched without regard to
    letter case: two spellings that agree once lower-cased give the same
    match keys and the same list of matched tags (unlike the identifier and
    the name, which are compared as written). *)
Theorem service_and_type_ignore_case :
  forall set_iter tag_rules service1 service2 subtype1 subtype2 arn name res_tags,
    lower service1 = lower service2 ->
    lower subtype1 = lower subtype2 ->
    get_match_keys service1 subtype1 arn name
    = get_match_keys service2 subtype2 arn name
    /\ matched_tags set_iter tag_rules service1 subtype1 arn res_tags
       = matched_tags set_iter tag_rules service2 subtype2 arn res_tags.
Proof.
  intros set_iter tag_rules service1 service2 subtype1 subtype2 arn name
         res_tags Hs Ht.
  assert (Hkeys : forall n,
            get_match_keys service1 subtype1 arn n
            = get_match_keys service2 subtype2 arn n).
  { intros n. unfold get_match_keys.
    rewrite <- (nonempty_lower subtype1), <- (nonempty_lower subtype2).
    rewrite Hs, Ht. reflexivity. }
  split; [apply Hkeys|].
  unfold matched_tags. now rewrite Hkeys.
Qed.

Lemma service_and_type_ignore_case_witness :
  get_match_keys "EC2" "Instance" "arn:aws:ec2:us-west-2:1:instance/i-1" None
  = get_match_keys "ec2" "instance" "arn:aws:ec2:us-west-2:1:instance/i-1" None.
Proof.
  exact (proj1 (service_and_type_ignore_case insertion_order [] "EC2" "ec2"
                  "Instance" "instance" "arn:aws:ec2:us-west-2:1:instance/i-1"
                  None [] eq_refl eq_refl)).
Defined.
